(** * CLI-Dev-Pattern: the template registry and the materializer

    A shallow embedding of [get_templates], [generar_estructura] and the
    part of [main] that drives them (src/CLI-Dev-Pattern.py), together with
    the properties of the scaffold generator that follow from the code.

    Conventions.
    - A level is a Python [int]: [Z].
    - The registry is a Python [dict] from [str] to [str].  A [dict] keeps
      insertion order and an assignment to an existing key keeps the key's
      position: it is modelled as an association list with [dict_set].
    - The bodies of the templates are static text returned by the
      [_tpl_*] functions (and three long literals for levels 1 and 2).  The
      generator never inspects them, so the registry records for each path
      the expression its content comes from ([contenido]) and the
      materializer is parametric in the text of each body ([cuerpo]).
    - The filesystem is a finite map from paths to nodes, and the standard
      output is the list of what was printed.  Its primitives raise the
      errors of a missing parent, of a file where a directory is expected,
      of an entry that is already there and of a directory that cannot be
      written; a full disk and symbolic links are left out.
    - A computation of the program takes the state of the world and gives
      a value or an exception, and the state reached: an exception keeps
      what was written and printed before it.
    - The interactive session and the resolution of the destination
      against the working directory are parameters of [main]. *)

From Stdlib Require Import ZArith String Ascii List DecimalString.
From stdpp Require Import gmap strings list fin_maps.

Local Open Scope string_scope.
Local Open Scope Z_scope.
Local Open Scope list_scope.

(** ** Template bodies *)

(** One constructor per function of the section CONTENIDOS DE TEMPLATES,
    and one per long literal assigned in place for the levels 1 and 2. *)
Inductive plantilla : Set :=
| lit_proyecto_py   (* templates["proyecto.py"], level 1 *)
| lit_backend_py    (* templates["backend.py"], level 2 *)
| lit_frontend_py   (* templates["frontend.py"], level 2 *)
| _tpl_entidad | _tpl_value_object | _tpl_eventos | _tpl_excepciones
| _tpl_repositorio_abc | _tpl_dto | _tpl_servicio | _tpl_repositorio_sql
| _tpl_conexion | _tpl_servicio_externo | _tpl_logger | _tpl_layout
| _tpl_vista | _tpl_backend | _tpl_bootstrap | _tpl_config
| _tpl_requirements | _tpl_env | _tpl_gitignore | _tpl_conftest
| _tpl_test_domain | _tpl_test_application | _tpl_test_infra
| _tpl_migraciones | _tpl_seed | _tpl_readme | _tpl_arquitectura
| _tpl_viewmodel_base | _tpl_viewmodel | _tpl_ui_model | _tpl_validators
| _tpl_comando_base | _tpl_comandos | _tpl_test_viewmodel
| _tpl_guia_estilo.

(** The right-hand side of an assignment [templates[k] = ...]: a short
    literal written out, or the text of a body. *)
Inductive contenido : Set :=
| Texto (s : string)
| Cuerpo (t : plantilla).

#[global] Instance plantilla_eq_dec : EqDecision plantilla.
Proof. solve_decision. Defined.

#[global] Instance contenido_eq_dec : EqDecision contenido.
Proof. solve_decision. Defined.

Definition comillas : string := String (ascii_of_nat 34) EmptyString.
Definition salto : string := String (ascii_of_nat 10) EmptyString.

(** A one-line docstring: [s] between two runs of three double quotes,
    then a newline. *)
Definition docstring (s : string) : string :=
  comillas +:+ comillas +:+ comillas +:+ s
  +:+ comillas +:+ comillas +:+ comillas +:+ salto.

(** ** The dictionary *)

Definition dict : Type := list (string * contenido).

(** [d[k] = v] *)
Fixpoint dict_set (d : dict) (k : string) (v : contenido) : dict :=
  match d with
  | [] => [(k, v)]
  | (k', v') :: r =>
      if String.eqb k' k then (k', v) :: r else (k', v') :: dict_set r k v
  end.

(** A run of consecutive assignments, in the order of the source. *)
Definition asignar (d : dict) (kvs : list (string * contenido)) : dict :=
  fold_left (fun d kv => dict_set d kv.1 kv.2) kvs d.

Definition claves (d : dict) : list string := map fst d.

(** ** The registry *)

Definition get_templates (nivel : Z) : dict :=
  let templates : dict := [] in
  if nivel =? 1 then
    asignar templates [ ("proyecto.py", Cuerpo lit_proyecto_py) ]
  else if nivel =? 2 then
    asignar templates
      [ ("backend.py", Cuerpo lit_backend_py);
        ("frontend.py", Cuerpo lit_frontend_py) ]
  else if 3 <=? nivel then
    let templates := asignar templates
      [ ("backend.py", Cuerpo _tpl_backend);
        ("bootstrap.py", Cuerpo _tpl_bootstrap) ] in
    let templates :=
      if 4 <=? nivel then
        asignar templates
          [ ("config.py", Cuerpo _tpl_config);
            ("requirements.txt", Cuerpo _tpl_requirements);
            (".env.example", Cuerpo _tpl_env);
            (".gitignore", Cuerpo _tpl_gitignore) ]
      else templates in
    let templates := asignar templates
      [ ("Domain/__init__.py",
           Texto (docstring "Capa de Dominio — Reglas de negocio puras."));
        ("Domain/entidades/__init__.py", Texto "");
        ("Domain/entidades/entidad.py", Cuerpo _tpl_entidad);
        ("Domain/value_objects/__init__.py", Texto "");
        ("Domain/value_objects/nombre.py", Cuerpo _tpl_value_object);
        ("Domain/eventos/__init__.py", Texto "");
        ("Domain/eventos/eventos_entidad.py", Cuerpo _tpl_eventos);
        ("Domain/excepciones/__init__.py", Texto "");
        ("Domain/excepciones/excepciones_dominio.py", Cuerpo _tpl_excepciones);
        ("Application/__init__.py",
           Texto (docstring "Capa de Aplicación — Casos de uso."));
        ("Application/servicios/__init__.py", Texto "");
        ("Application/servicios/servicio_entidad.py", Cuerpo _tpl_servicio);
        ("Application/dto/__init__.py", Texto "");
        ("Application/dto/entidad_dto.py", Cuerpo _tpl_dto);
        ("Application/interfaces/__init__.py", Texto "");
        ("Application/interfaces/repositorio_entidad.py",
           Cuerpo _tpl_repositorio_abc);
        ("Infrastructure/__init__.py",
           Texto (docstring
             "Capa de Infraestructura — Implementaciones técnicas."));
        ("Infrastructure/persistencia/__init__.py", Texto "");
        ("Infrastructure/persistencia/base_datos/__init__.py", Texto "");
        ("Infrastructure/persistencia/base_datos/conexion.py",
           Cuerpo _tpl_conexion);
        ("Infrastructure/persistencia/repositorios/__init__.py", Texto "");
        ("Infrastructure/persistencia/repositorios/repositorio_entidad_sql.py",
           Cuerpo _tpl_repositorio_sql);
        ("Infrastructure/servicios_externos/__init__.py", Texto "");
        ("Infrastructure/servicios_externos/servicio_externo.py",
           Cuerpo _tpl_servicio_externo);
        ("Infrastructure/logging/__init__.py", Texto "");
        ("Infrastructure/logging/logger_config.py", Cuerpo _tpl_logger);
        ("User_Interface/__init__.py",
           Texto (docstring "Capa de Interfaz de Usuario."));
        ("User_Interface/layout.py", Cuerpo _tpl_layout);
        ("User_Interface/vistas/__init__.py", Texto "");
        ("User_Interface/vistas/vista_principal.py", Cuerpo _tpl_vista) ] in
    let templates :=
      if 4 <=? nivel then
        asignar templates
          [ ("Tests/__init__.py", Texto "");
            ("Tests/conftest.py", Cuerpo _tpl_conftest);
            ("Tests/test_domain/__init__.py", Texto "");
            ("Tests/test_domain/test_entidad.py", Cuerpo _tpl_test_domain);
            ("Tests/test_application/__init__.py", Texto "");
            ("Tests/test_application/test_servicio_entidad.py",
               Cuerpo _tpl_test_application);
            ("Tests/test_infrastructure/__init__.py", Texto "");
            ("Tests/test_infrastructure/test_repositorio.py",
               Cuerpo _tpl_test_infra);
            ("Scripts/__init__.py", Texto "");
            ("Scripts/migraciones.py", Cuerpo _tpl_migraciones);
            ("Scripts/seed_data.py", Cuerpo _tpl_seed);
            ("Docs/README.md", Cuerpo _tpl_readme);
            ("Docs/arquitectura.md", Cuerpo _tpl_arquitectura) ]
      else templates in
    let templates :=
      if 5 <=? nivel then
        asignar templates
          [ ("Presentation/__init__.py",
               Texto (docstring "Capa de Presentación — MVVM."));
            ("Presentation/viewmodels/__init__.py", Texto "");
            ("Presentation/viewmodels/viewmodel_base.py",
               Cuerpo _tpl_viewmodel_base);
            ("Presentation/viewmodels/entidad_viewmodel.py",
               Cuerpo _tpl_viewmodel);
            ("Presentation/models/__init__.py", Texto "");
            ("Presentation/models/ui_entidad.py", Cuerpo _tpl_ui_model);
            ("Presentation/models/validators.py", Cuerpo _tpl_validators);
            ("Presentation/commands/__init__.py", Texto "");
            ("Presentation/commands/comando_base.py",
               Cuerpo _tpl_comando_base);
            ("Presentation/commands/comandos_entidad.py",
               Cuerpo _tpl_comandos);
            ("Tests/test_presentation/__init__.py", Texto "");
            ("Tests/test_presentation/test_entidad_viewmodel.py",
               Cuerpo _tpl_test_viewmodel);
            ("Docs/guia_estilo.md", Cuerpo _tpl_guia_estilo) ]
      else templates in
    templates
  else templates.

(** The relative paths of a level, in insertion order. *)
Definition rutas_de (nivel : Z) : list string := claves (get_templates nivel).

(** ** Paths

    A [pathlib.Path] is the list of its components, innermost first: the
    parent of a path is its tail and the root of the filesystem is [[]]
    (its own parent). *)

Abbreviation ruta := (list string).

Definition padre (p : ruta) : ruta := tail p.

(** The pieces of a string between the separators ["/"]. *)
Fixpoint dividir (s : string) : list string :=
  match s with
  | EmptyString => [EmptyString]
  | String a s' =>
      if Ascii.eqb a "/" then EmptyString :: dividir s'
      else match dividir s' with
           | [] => [String a EmptyString]
           | seg :: r => String a seg :: r
           end
  end.

(** Parsing a path drops the empty pieces and the pieces ["."]. *)
Definition componentes (s : string) : list string :=
  filter (fun seg => seg <> EmptyString /\ seg <> ".") (dividir s).

Definition es_absoluta (s : string) : bool :=
  match s with
  | String a _ => Ascii.eqb a "/"
  | EmptyString => false
  end.

(** [base / rel]: an absolute right operand replaces the left one. *)
Definition unir (base : ruta) (rel : string) : ruta :=
  if es_absoluta rel then rev (componentes rel)
  else rev (componentes rel) ++ base.

(** ** The filesystem and the standard output *)

(** An entry of the filesystem: a regular file with its content (the bytes
    of the UTF-8 text), or a directory, in which the process may or may
    not create entries. *)
Inductive nodo : Type :=
| Archivo (texto : string)
| Directorio (escribible : bool).

(** The subclasses of [OSError] that the primitives below raise. *)
Inductive oserror : Set :=
| FileExistsError | FileNotFoundError | NotADirectoryError
| IsADirectoryError | PermissionError.

Inductive excepcion : Set :=
| OSError (e : oserror)
| KeyError (k : Z)
| SystemExit (codigo : Z)
| RuntimeError.

(** What [print] wrote, one item per call.  The colours of [c] do not change
    the text and are left out. *)
Inductive impresion : Type :=
| ImpVacia                          (* print() *)
| ImpCreado (rel : string)          (* the line of a file written *)
| ImpOmitido (rel : string)         (* the line of a file left as it was *)
| ImpTotalCreados (n : nat)         (* n archivos creados *)
| ImpTotalOmitidos (n : nat)        (* n omitidos *)
| ImpGenerando (nivel : Z) (nombre : string)
| ImpDestino (p : ruta)
| ImpCd (p : ruta)                  (* 1.  cd p *)
| ImpTexto (s : string).            (* a fixed line *)

(** The state of the world: the filesystem, a finite map from paths to
    entries, and the output so far. *)
Record mundo : Type := Mundo {
  disco : gmap ruta nodo;
  salida : list impresion
}.

Definition con_disco (f : gmap ruta nodo) (w : mundo) : mundo :=
  Mundo f (salida w).

(** ** The monad of the program: state and exceptions *)

Inductive resultado (A : Type) : Type :=
| Valor (a : A)
| Excepcion (e : excepcion).
Arguments Valor {A} a.
Arguments Excepcion {A} e.

Definition M (A : Type) : Type := mundo -> resultado A * mundo.

Definition ret {A} (a : A) : M A := fun w => (Valor a, w).

Definition lanzar {A} (e : excepcion) : M A := fun w => (Excepcion e, w).

(** The result of a call that does not use the state: its value, or the
    exception that it raised. *)
Definition elevar {A} (r : resultado A) : M A := fun w => (r, w).

Definition ligar {A B} (m : M A) (k : A -> M B) : M B := fun w =>
  match m w with
  | (Valor a, w') => k a w'
  | (Excepcion e, w') => (Excepcion e, w')
  end.

(** [try: m except e: h e] *)
Definition intentar {A} (m : M A) (h : excepcion -> M A) : M A := fun w =>
  match m w with
  | (Valor a, w') => (Valor a, w')
  | (Excepcion e, w') => h e w'
  end.

#[global] Instance M_ret : MRet M := @ret.
#[global] Instance M_bind : MBind M := fun A B k m => ligar m k.

(** [print(x)] adds a line to the output.  The output is taken to be a
    terminal that can encode every line of the program, so [print] does
    not raise. *)
Definition print (x : impresion) : M unit := fun w =>
  (Valor tt, Mundo (disco w) (salida w ++ [x])).

(** *** Primitives of the filesystem *)

(** The error, if any, of creating a new entry at [p]: the parent must be
    a directory that can be written. *)
Definition error_al_crear (f : gmap ruta nodo) (p : ruta) : option oserror :=
  match p with
  | [] => Some FileNotFoundError
  | _ :: d =>
      match f !! d with
      | None => Some FileNotFoundError
      | Some (Archivo _) => Some NotADirectoryError
      | Some (Directorio false) => Some PermissionError
      | Some (Directorio true) => None
      end
  end.

(** [os.mkdir(p)] *)
Definition os_mkdir (p : ruta) : M unit := fun w =>
  match disco w !! p with
  | Some _ => (Excepcion (OSError FileExistsError), w)
  | None =>
      match error_al_crear (disco w) p with
      | Some e => (Excepcion (OSError e), w)
      | None => (Valor tt, con_disco (<[p := Directorio true]> (disco w)) w)
      end
  end.

(** [p.is_dir()] and [p.exists()] *)
Definition is_dir (p : ruta) : M bool := fun w =>
  (Valor match disco w !! p with
         | Some (Directorio _) => true
         | _ => false
         end, w).

Definition exists_ (p : ruta) : M bool := fun w =>
  (Valor match disco w !! p with
         | Some _ => true
         | None => false
         end, w).

(** [p.write_text(s, encoding="utf-8")]: opens [p] for writing, which
    creates the file or truncates it. *)
Definition write_text (p : ruta) (s : string) : M unit := fun w =>
  match disco w !! p with
  | Some (Directorio _) => (Excepcion (OSError IsADirectoryError), w)
  | Some (Archivo _) => (Valor tt, con_disco (<[p := Archivo s]> (disco w)) w)
  | None =>
      match error_al_crear (disco w) p with
      | Some e => (Excepcion (OSError e), w)
      | None => (Valor tt, con_disco (<[p := Archivo s]> (disco w)) w)
      end
  end.

(** [p.mkdir(parents=False, exist_ok=True)] *)
Definition mkdir_sin_padres (p : ruta) : M unit :=
  intentar (os_mkdir p) (fun e =>
    match e return M unit with
    | OSError FileNotFoundError => lanzar e
    | OSError _ => b ← is_dir p; if b : bool then ret tt else lanzar e
    | _ => lanzar e
    end).

(** [p.mkdir(parents=True, exist_ok=True)], as pathlib writes it: try
    [os.mkdir]; when the parent is missing make the parent first and try
    again without [parents]; any other [OSError] is ignored when [p] is
    already a directory. *)
Fixpoint mkdir (p : ruta) : M unit :=
  intentar (os_mkdir p) (fun e =>
    match e return M unit with
    | OSError FileNotFoundError =>
        match p with
        | [] => lanzar e
        | _ :: d => mkdir d ;; mkdir_sin_padres p
        end
    | OSError _ => b ← is_dir p; if b : bool then ret tt else lanzar e
    | _ => lanzar e
    end).

(** ** The materializer *)

(** The call [get_templates(nivel)] inside the program: the registry reads
    and writes nothing and raises nothing. *)
Definition llamar_get_templates (nivel : Z) : M dict :=
  ret (get_templates nivel).

Section Materializador.

(** The text of each body. *)
Variable cuerpo : plantilla -> string.

Definition texto_de (c : contenido) : string :=
  match c with
  | Texto s => s
  | Cuerpo t => cuerpo t
  end.

(** The body of the loop for one item, with the two counters. *)
Definition paso (base : ruta) (ruta_relativa : string) (c : contenido)
    (cuenta : nat * nat) : M (nat * nat) :=
  let '(creados, omitidos) := cuenta in
  let archivo := unir base ruta_relativa in
  mkdir (padre archivo) ;;
  ya ← exists_ archivo;
  if ya : bool then
    let omitidos := S omitidos in
    print (ImpOmitido ruta_relativa) ;;
    ret (creados, omitidos)
  else
    write_text archivo (texto_de c) ;;
    let creados := S creados in
    print (ImpCreado ruta_relativa) ;;
    ret (creados, omitidos).

(** [for ruta_relativa, contenido in templates.items(): ...] *)
Fixpoint bucle (base : ruta) (items : dict) (cuenta : nat * nat)
    : M (nat * nat) :=
  match items with
  | [] => ret cuenta
  | (ruta_relativa, c) :: resto =>
      cuenta' ← paso base ruta_relativa c cuenta;
      bucle base resto cuenta'
  end.

(** The two lines of totals after the loop. *)
Definition resumen (cuenta : nat * nat) : M unit :=
  let '(creados, omitidos) := cuenta in
  print ImpVacia ;;
  print (ImpTotalCreados creados) ;;
  (if Nat.eqb omitidos 0 then ret tt
   else print (ImpTotalOmitidos omitidos)) ;;
  print ImpVacia.

Definition generar_estructura (nivel : Z) (base : ruta) : M unit :=
  templates ← llamar_get_templates nivel;
  cuenta ← bucle base templates (0%nat, 0%nat);
  resumen cuenta.

End Materializador.

(** ** The entry point *)

Definition NIVELES (nivel : Z) : option string :=
  if nivel =? 1 then Some "Standalone Script"
  else if nivel =? 2 then Some "Patrón BF (Backend–Frontend)"
  else if nivel =? 3 then Some "Patrón AUDI"
  else if nivel =? 4 then Some "Patrón AUDDITS"
  else if nivel =? 5 then Some "Patrón AUDDITS + MVVM"
  else None.

(** [NIVELES[nivel]] *)
Definition nombre_nivel (nivel : Z) : M string :=
  match NIVELES nivel with
  | Some nombre => ret nombre
  | None => lanzar (KeyError nivel)
  end.

(** What [parser.parse_args()] returns. *)
Record Namespace : Type := {
  args_nivel : option Z;
  args_ruta : option string;
  args_forzar : bool
}.

(** Truth value of [args.nivel] and of [args.ruta]. *)
Definition verdadero_int (o : option Z) : bool :=
  match o with
  | Some n => negb (n =? 0)
  | None => false
  end.

Definition verdadero_str (o : option string) : bool :=
  match o with
  | Some (String _ _) => true
  | _ => false
  end.

Section Main.

Variable cuerpo : plantilla -> string.

(** [Path(s).expanduser().resolve()]: depends on the home and working
    directories of the process, not on the program.  It gives the path, or
    raises: [expanduser] raises [RuntimeError] when the home directory of
    a path that starts with a tilde cannot be determined.  No caller
    catches what it raises. *)
Variable resolver : string -> resultado ruta.

(** The interactive branch ([banner], [mostrar_niveles], [pedir_nivel],
    [pedir_ruta], [confirmar]): reads the terminal and gives the level and
    the destination, or leaves with [sys.exit(0)], or with what the
    resolution of the path raises.  None of these functions receives
    [args]. *)
Variable modo_interactivo : M (Z * ruta).

Definition pasos_siguientes (nivel : Z) (base : ruta) : M unit :=
  if 4 <=? nivel then
    print (ImpTexto "  Pasos siguientes:") ;;
    print (ImpCd base) ;;
    print (ImpTexto "  2.  python -m venv venv") ;;
    print (ImpTexto "  3.  pip install -r requirements.txt") ;;
    print (ImpTexto "  4.  python Scripts/migraciones.py init") ;;
    print (ImpTexto "  5.  python Scripts/seed_data.py") ;;
    print (ImpTexto "  6.  python bootstrap.py --modo desarrollo") ;;
    print (ImpTexto "  7.  pytest Tests/")
  else if 3 <=? nivel then
    print (ImpTexto "  Pasos siguientes:") ;;
    print (ImpCd base) ;;
    print (ImpTexto "  2.  python bootstrap.py")
  else if nivel =? 2 then
    print (ImpTexto "  Pasos siguientes:") ;;
    print (ImpCd base) ;;
    print (ImpTexto "  2.  python frontend.py")
  else
    print (ImpTexto "  Pasos siguientes:") ;;
    print (ImpCd base) ;;
    print (ImpTexto "  2.  python proyecto.py --modo ui").

Definition main (args : Namespace) : M unit :=
  sel ← (if verdadero_int (args_nivel args) && verdadero_str (args_ruta args)
         then
           let nivel := default 0 (args_nivel args) in
           destino ← elevar (resolver (default EmptyString (args_ruta args)));
           ret (nivel, destino)
         else modo_interactivo);
  let '(nivel, base) := sel : Z * ruta in
  print ImpVacia ;;
  nombre ← nombre_nivel nivel;
  print (ImpGenerando nivel nombre) ;;
  print (ImpDestino base) ;;
  print ImpVacia ;;
  mkdir base ;;
  generar_estructura cuerpo nivel base ;;
  print ImpVacia ;;
  print (ImpTexto "  ✅ Proyecto generado correctamente.") ;;
  print ImpVacia ;;
  pasos_siguientes nivel base ;;
  print ImpVacia.

End Main.

(** ** Sample data, to run the model *)

(** A sample assignment of texts to the bodies. *)
Definition cuerpo_muestra (t : plantilla) : string :=
  match t with
  | lit_proyecto_py => "#!/usr/bin/env python3"
  | lit_backend_py => "# backend.py"
  | lit_frontend_py => "# frontend.py"
  | _ => "# plantilla"
  end.

(** A filesystem with the root directory only. *)
Definition disco_raiz : gmap ruta nodo := {[ [] := Directorio true ]}.

(** A filesystem where [/tmp/proj] is an empty directory. *)
Definition disco_proj : gmap ruta nodo :=
  <[ ["proj"; "tmp"] := Directorio true ]>
    (<[ ["tmp"] := Directorio true ]> disco_raiz).

(** [/tmp/proj] with a regular file named [Domain] in it. *)
Definition disco_ocupado : gmap ruta nodo :=
  <[ ["Domain"; "proj"; "tmp"] := Archivo "notas" ]> disco_proj.

(** [/tmp/proj] with a [backend.py] written by hand. *)
Definition disco_editado : gmap ruta nodo :=
  <[ ["backend.py"; "proj"; "tmp"] := Archivo "# mi trabajo" ]> disco_proj.

(** A session where the user asks for level 2 in [/tmp/proj]. *)
Definition sesion_muestra : M (Z * ruta) :=
  print (ImpTexto "  AETHERYON  Dev  Pattern  Generator") ;;
  ret (2, ["proj"; "tmp"]).

(** A sample of the resolution, for absolute paths: no home directory is
    known, so a path that starts with a tilde raises. *)
Definition resolver_muestra (s : string) : resultado ruta :=
  match s with
  | String "~" _ => Excepcion RuntimeError
  | _ => Valor (rev (componentes s))
  end.

(** ** Predicates on the filesystem *)

Definition es_directorio (f : gmap ruta nodo) (p : ruta) : Prop :=
  ∃ b, f !! p = Some (Directorio b).

(** Every entry lies in a directory. *)
Definition bien_formado (f : gmap ruta nodo) : Prop :=
  ∀ x p, is_Some (f !! (x :: p)) → es_directorio f p.

(** [base] is a directory that can be written and has nothing in it. *)
Definition destino_vacio (f : gmap ruta nodo) (base : ruta) : Prop :=
  f !! base = Some (Directorio true) ∧
  ∀ s : ruta, s ≠ [] → f !! (s ++ base) = None.

(** When can [mkdir] make [p]: [p] is a directory, or it is missing and
    its parent can be made and, if it is there, can be written. *)
Fixpoint hacedero (f : gmap ruta nodo) (p : ruta) : Prop :=
  match f !! p with
  | Some (Directorio _) => True
  | Some (Archivo _) => False
  | None =>
      match p with
      | [] => False
      | _ :: d =>
          hacedero f d ∧ (f !! d = None ∨ f !! d = Some (Directorio true))
      end
  end.

(** An empty destination: nothing is below [base], and [base] is a
    directory that can be written or is missing and can be made. *)
Definition destino_libre (f : gmap ruta nodo) (base : ruta) : Prop :=
  hacedero f base ∧
  (∀ b, f !! base = Some (Directorio b) → b = true) ∧
  ∀ s : ruta, s ≠ [] → f !! (s ++ base) = None.

(** What one [mkdir] does, between the state before and the state after. *)
Definition mkdir_post (p : ruta) (w : mundo) (r : resultado unit)
    (w' : mundo) : Prop :=
  salida w' = salida w ∧
  disco w ⊆ disco w' ∧
  (∀ y n, disco w !! y = None → disco w' !! y = Some n →
          y `suffix_of` p ∧ y ≠ [] ∧ n = Directorio true) ∧
  (bien_formado (disco w) → bien_formado (disco w')) ∧
  match r with
  | Valor _ => es_directorio (disco w') p ∧ (is_Some (disco w !! p) → w' = w)
  | Excepcion e => w' = w ∧ ∃ o, e = OSError o
  end.

(** The kind of a line of the output, and the number of lines of a kind. *)
Definition es_creado (l : impresion) : bool :=
  match l with ImpCreado _ => true | _ => false end.

Definition es_omitido (l : impresion) : bool :=
  match l with ImpOmitido _ => true | _ => false end.

Definition contar (p : impresion → bool) (ls : list impresion) : nat :=
  length (List.filter p ls).

(** What [resumen] prints. *)
Definition totales (creados omitidos : nat) : list impresion :=
  [ImpVacia; ImpTotalCreados creados]
  ++ (if Nat.eqb omitidos 0 then [] else [ImpTotalOmitidos omitidos])
  ++ [ImpVacia].

(** The components of a relative path, innermost first. *)
Definition cs (rel : string) : ruta := rev (componentes rel).

Definition relativa (rel : string) : Prop :=
  es_absoluta rel = false ∧ componentes rel ≠ [].

(** No path of the list is repeated, and none is an ancestor of
    another. *)
Definition sin_choques (L : list ruta) : Prop :=
  NoDup L ∧ Forall (λ a, Forall (λ b, a `suffix_of` b → a = b) L) L.

(** Below [base] there are only the files of [D], and the directories on
    the way to them, which can be written. *)
Definition solo_generado (base : ruta) (f : gmap ruta nodo)
    (D : list ruta) : Prop :=
  f !! base = Some (Directorio true) ∧
  ∀ s n, s ≠ [] → f !! (s ++ base) = Some n →
    (n = Directorio true ∧ ∃ a, a ∈ D ∧ s `suffix_of` a ∧ s ≠ a) ∨
    ((∃ t, n = Archivo t) ∧ s ∈ D).

(** A computation that removes and changes no entry of the filesystem. *)
Definition conserva {A} (m : M A) : Prop :=
  ∀ w r w', m w = (r, w') → disco w ⊆ disco w'.

(** ** What the loop does, as predicates *)

Section Informes.

Variable cuerpo : plantilla -> string.

(** What one turn of the loop does. *)
Definition paso_post (base : ruta) (rel : string) (c : contenido)
    (cuenta : nat * nat) (w : mundo) (r : resultado (nat * nat))
    (w' : mundo) : Prop :=
  let t := unir base rel in
  (bien_formado (disco w) → bien_formado (disco w')) ∧
  disco w ⊆ disco w' ∧
  (∀ y n, disco w !! y = None → disco w' !! y = Some n →
          (y = t ∧ n = Archivo (texto_de cuerpo c)) ∨
          (y `suffix_of` padre t ∧ y ≠ [] ∧ n = Directorio true)) ∧
  match r with
  | Excepcion e =>
      w' = w ∧ (∃ o, e = OSError o) ∧
      (mkdir (padre t) w = (Excepcion e, w) ∨
       (mkdir (padre t) w = (Valor tt, w) ∧ disco w !! t = None ∧
        write_text t (texto_de cuerpo c) w = (Excepcion e, w)))
  | Valor cuenta' =>
      es_directorio (disco w') (padre t) ∧
      ((is_Some (disco w !! t) ∧
        salida w' = salida w ++ [ImpOmitido rel] ∧
        cuenta' = (cuenta.1, S cuenta.2)) ∨
       (disco w !! t = None ∧
        disco w' !! t = Some (Archivo (texto_de cuerpo c)) ∧
        salida w' = salida w ++ [ImpCreado rel] ∧
        cuenta' = (S cuenta.1, cuenta.2)))
  end.

(** The line printed for an item, between the filesystem before the loop
    and the filesystem after it. *)
Definition informe (base : ruta) (f f' : gmap ruta nodo)
    (it : string * contenido) (l : impresion) : Prop :=
  let t := unir base it.1 in
  es_directorio f' (padre t) ∧
  ((l = ImpOmitido it.1 ∧ is_Some (f' !! t)) ∨
   (l = ImpCreado it.1 ∧ f !! t = None ∧
    f' !! t = Some (Archivo (texto_de cuerpo it.2)))).

End Informes.

Ltac desarmar :=
  unfold mbind, M_bind, ligar, intentar, mret, M_ret, ret, lanzar, print,
    is_dir, exists_, con_disco in *; simpl in *.

(** ** The shape of the paths of the registry *)

(** [s] ends with [suf]. *)
Definition termina_en (suf s : string) : bool :=
  String.prefix (String.rev suf) (String.rev s).

(** The tails of a list, the list itself first. *)
Fixpoint colas {A} (l : list A) : list (list A) :=
  l :: match l with
       | [] => []
       | _ :: r => colas r
       end.

(** When [rel] is a Python file, every directory on the way to it has its
    [__init__.py] among the paths [ks]. *)
Definition en_paquetes (ks : list string) (rel : string) : Prop :=
  termina_en ".py" rel = true →
  Forall (λ d : ruta,
            d = [] ∨ Exists (λ rel', cs rel' = "__init__.py" :: d) ks)
         (colas (padre (cs rel))).

(** ** The report and the tree of a level *)

(** The line of a path, read off the filesystem before the run. *)
Definition linea_esperada (f : gmap ruta nodo) (base : ruta)
    (rel : string) : impresion :=
  if bool_decide (is_Some (f !! unir base rel)) then ImpOmitido rel
  else ImpCreado rel.

Section Arbol.

Variable cuerpo : plantilla -> string.

(** The entries that a list of items stands for below [base]: each file
    with its text, and each directory on the way to it. *)
Fixpoint pares (base : ruta) (items : dict) : list (ruta * nodo) :=
  match items with
  | [] => []
  | (rel, c) :: resto =>
      let t := unir base rel in
      (t, Archivo (texto_de cuerpo c))
      :: map (λ d, (d, Directorio true))
             (filter (λ d : ruta, d ≠ []) (colas (padre t)))
      ++ pares base resto
  end.

(** The tree of a list of items, as a filesystem. *)
Definition arbol (base : ruta) (items : dict) : gmap ruta nodo :=
  list_to_map (pares base items).

End Arbol.

(** No place of the list is on the way to another one. *)
Definition compatibles (L : list ruta) : Prop :=
  Forall (λ a, Forall (λ b, a `suffix_of` b → a = b) L) L.

(** Two paths of the list with the same components are the same path. *)
Definition sin_sinonimos (K : list string) : Prop :=
  Forall (λ r1, Forall (λ r2, cs r1 = cs r2 → r1 = r2) K) K.

(** The line of a path of the second of two runs: skipped when the first
    run had the path. *)
Definition linea_segunda (previas : list string) (rel : string)
    : impresion :=
  if bool_decide (rel ∈ previas) then ImpOmitido rel else ImpCreado rel.

(** ** The interactive session

    The terminal is the list of what the user does at each [input()]: a
    line, or an interruption; at the end of the list the input is closed.
    A function that reads takes the list and gives back what is left.
    [str.strip], [str.lower], [int] and the resolution of a path are
    parameters. *)

Inductive tecla : Type :=
| Linea (s : string)
| CtrlC.

(** [print("\n  Cancelado.")] *)
Definition cancelado : impresion := ImpTexto (salto +:+ "  Cancelado.").

(** The line that [main] prints after a run that returned. *)
Definition exito : impresion :=
  ImpTexto "  ✅ Proyecto generado correctamente.".

Definition banner : M unit :=
  print ImpVacia ;;
  print (ImpTexto "  ╔══════════════════════════════════════════╗") ;;
  print (ImpTexto "  ║     AETHERYON  Dev  Pattern  Generator    ║") ;;
  print (ImpTexto "  ╚══════════════════════════════════════════╝") ;;
  print ImpVacia.

(** [NIVELES.items()]: the keys in the order of the literal. *)
Definition NIVELES_items : list (Z * string) :=
  omap (λ n, (λ nombre, (n, nombre)) <$> NIVELES n) [1; 2; 3; 4; 5].

Definition descripciones (n : Z) : option string :=
  if n =? 1 then Some "Script único con múltiples modos operativos"
  else if n =? 2 then Some "Separación básica lógica / presentación"
  else if n =? 3 then
    Some "Arquitectura por capas (Domain, Application, Infrastructure, UI)"
  else if n =? 4 then Some "AUDI + Testing, Scripts y Documentación"
  else if n =? 5 then Some "AUDDITS + Capa de Presentación MVVM"
  else None.

(** [str(n)] *)
Definition str_nivel (n : Z) : string := NilZero.string_of_int (Z.to_int n).

(** [str(p)], with the separator of POSIX. *)
Definition str_ruta (p : ruta) : string :=
  match p with
  | [] => "/"
  | _ => foldr (λ seg acc, acc +:+ "/" +:+ seg) EmptyString p
  end.

Fixpoint mostrar_niveles_bucle (items : list (Z * string)) : M unit :=
  match items with
  | [] => ret tt
  | (n, nombre) :: resto =>
      print (ImpTexto ("  " +:+ str_nivel n +:+ "  " +:+ nombre)) ;;
      d ← match descripciones n with
          | Some d => ret d
          | None => lanzar (KeyError n)
          end;
      print (ImpTexto ("     " +:+ d)) ;;
      mostrar_niveles_bucle resto
  end.

Definition mostrar_niveles : M unit :=
  print (ImpTexto "  Niveles disponibles:") ;;
  print ImpVacia ;;
  mostrar_niveles_bucle NIVELES_items ;;
  print ImpVacia.

Section Sesion.

Variable strip : string -> string.
Variable lower : string -> string.

(** [int(s)]: the integer, or [None] for [ValueError]. *)
Variable int_de : string -> option Z.

(** [Path(s).expanduser().resolve()], as in [main]. *)
Variable resolver : string -> resultado ruta.

(** The level that a line stands for, if it is one that [pedir_nivel]
    takes. *)
Definition nivel_de (s : string) : option Z :=
  match int_de (strip s) with
  | Some nivel => if (1 <=? nivel) && (nivel <=? 5) then Some nivel else None
  | None => None
  end.

(** What the session has read when it comes to resolve a path: lines that
    are no level, the line of the level, lines that are blank, and the
    line [s] of the path; [resto] is what follows. *)
Definition lee_hasta_ruta (entrada : list tecla) (nivel : Z) (s : string)
    (resto : list tecla) : Prop :=
  ∃ rechazadas sn blancas,
    entrada = map Linea rechazadas ++ Linea sn
                :: map Linea blancas ++ Linea s :: resto ∧
    Forall (λ x, nivel_de x = None) rechazadas ∧
    nivel_de sn = Some nivel ∧
    Forall (λ x, strip x = EmptyString) blancas ∧
    strip s ≠ EmptyString.

Fixpoint pedir_nivel (entrada : list tecla) : M (Z * list tecla) :=
  print (ImpTexto "  ¿Qué nivel de arquitectura quieres? [1-5]: ") ;;
  match entrada with
  | Linea s :: resto =>
      let valor := strip s in
      match int_de valor with
      | Some nivel =>
          if (1 <=? nivel) && (nivel <=? 5) then ret (nivel, resto)
          else
            print (ImpTexto "  ⚠️  Ingresa un número entre 1 y 5.") ;;
            pedir_nivel resto
      | None =>
          print (ImpTexto "  ⚠️  Debe ser un número entero.") ;;
          pedir_nivel resto
      end
  | _ => print cancelado ;; lanzar (SystemExit 0)
  end.

Fixpoint pedir_ruta_bucle (entrada : list tecla) : M (ruta * list tecla) :=
  print (ImpTexto "  Ruta: ") ;;
  match entrada with
  | Linea s :: resto =>
      let valor := strip s in
      match valor with
      | EmptyString =>
          print (ImpTexto "  ⚠️  La ruta no puede estar vacía.") ;;
          pedir_ruta_bucle resto
      | _ => base ← elevar (resolver valor); ret (base, resto)
      end
  | _ => print cancelado ;; lanzar (SystemExit 0)
  end.

Definition pedir_ruta (entrada : list tecla) : M (ruta * list tecla) :=
  print ImpVacia ;;
  print (ImpTexto "  ¿Dónde generar el proyecto?") ;;
  print (ImpTexto "  (Ruta absoluta o relativa. Se crea si no existe)") ;;
  pedir_ruta_bucle entrada.

(** The answers that [confirmar] takes for a yes. *)
Definition afirmativas : list string := [""; "s"; "si"; "sí"; "y"; "yes"].

Definition confirmar (nivel : Z) (base : ruta) (entrada : list tecla)
    : M bool :=
  print ImpVacia ;;
  print (ImpTexto "  Resumen:") ;;
  nombre ← nombre_nivel nivel;
  print (ImpTexto ("  Nivel : " +:+ str_nivel nivel +:+ " — " +:+ nombre)) ;;
  print (ImpTexto ("  Ruta  : " +:+ str_ruta base)) ;;
  print ImpVacia ;;
  print (ImpTexto "  ¿Continuar? [S/n]: ") ;;
  match entrada with
  | Linea s :: _ => ret (bool_decide (lower (strip s) ∈ afirmativas))
  | _ => ret false
  end.

(** The interactive branch of [main]. *)
Definition sesion_interactiva (entrada : list tecla) : M (Z * ruta) :=
  banner ;;
  mostrar_niveles ;;
  r1 ← pedir_nivel entrada;
  let '(nivel, entrada1) := r1 : Z * list tecla in
  r2 ← pedir_ruta entrada1;
  let '(base, entrada2) := r2 : ruta * list tecla in
  ok ← confirmar nivel base entrada2;
  if ok : bool then ret (nivel, base)
  else print cancelado ;; lanzar (SystemExit 0).

End Sesion.

(** The lines that [pasos_siguientes] prints. *)
Definition lineas_pasos (nivel : Z) (base : ruta) : list impresion :=
  if 4 <=? nivel then
    [ ImpTexto "  Pasos siguientes:"; ImpCd base;
      ImpTexto "  2.  python -m venv venv";
      ImpTexto "  3.  pip install -r requirements.txt";
      ImpTexto "  4.  python Scripts/migraciones.py init";
      ImpTexto "  5.  python Scripts/seed_data.py";
      ImpTexto "  6.  python bootstrap.py --modo desarrollo";
      ImpTexto "  7.  pytest Tests/" ]
  else if 3 <=? nivel then
    [ ImpTexto "  Pasos siguientes:"; ImpCd base;
      ImpTexto "  2.  python bootstrap.py" ]
  else if nivel =? 2 then
    [ ImpTexto "  Pasos siguientes:"; ImpCd base;
      ImpTexto "  2.  python frontend.py" ]
  else
    [ ImpTexto "  Pasos siguientes:"; ImpCd base;
      ImpTexto "  2.  python proyecto.py --modo ui" ].

(** What [argparse] lets through for the level: nothing, or one of
    [range(1, 6)]. *)
Definition args_validos (args : Namespace) : Prop :=
  match args_nivel args with
  | Some n => 1 <= n <= 5
  | None => True
  end.

(** The run is in direct mode: level and destination were both given. *)
Definition modo_directo (args : Namespace) : bool :=
  verdadero_int (args_nivel args) && verdadero_str (args_ruta args).

(** The output grew by lines that all satisfy [P]. *)
Definition agrega (P : impresion → Prop) (w w' : mundo) : Prop :=
  ∃ lineas, salida w' = salida w ++ lineas ∧ Forall P lineas.

(** The filesystem is as it was, and the output grew by lines that all
    satisfy [P]. *)
Definition quieto (P : impresion → Prop) (w w' : mundo) : Prop :=
  disco w' = disco w ∧ agrega P w w'.

(** A line that is not the line of success. *)
Abbreviation no_exito := (λ l : impresion, l ≠ exito).

(** Samples of [str.strip], [str.lower] and [int], for plain ASCII
    lines, and of what a user types. *)
Fixpoint lstrip (s : string) : string :=
  match s with
  | String " " resto => lstrip resto
  | _ => s
  end.

Definition strip_muestra (s : string) : string :=
  String.rev (lstrip (String.rev (lstrip s))).

Definition lower_ascii (a : ascii) : ascii :=
  let n := nat_of_ascii a in
  if ((65 <=? n) && (n <=? 90))%nat then ascii_of_nat (n + 32) else a.

Fixpoint lower_muestra (s : string) : string :=
  match s with
  | EmptyString => EmptyString
  | String a resto => String (lower_ascii a) (lower_muestra resto)
  end.

Definition int_de_muestra (s : string) : option Z :=
  Z.of_int <$> NilEmpty.int_of_string s.

Definition entrada_muestra : list tecla :=
  [ Linea "siete"; Linea "7"; Linea " 2"; Linea "  ";
    Linea "/tmp/proj "; Linea "S" ].

(** ** The registry: properties *)

Lemma claves_dict_set (d : dict) (k : string) (v : contenido) :
  claves (dict_set d k v) = if bool_decide (k ∈ claves d) then claves d
                            else claves d ++ [k].
Proof.
  induction d as [|[k' v'] d IH]; simpl; [done|].
  destruct (String.eqb_spec k' k) as [->|Hne]; simpl.
  - rewrite bool_decide_eq_true_2; [done|]. by left.
  - rewrite IH. destruct (bool_decide (k ∈ claves d)) eqn:E.
    + apply bool_decide_eq_true_1 in E.
      rewrite bool_decide_eq_true_2; [done|]. by right.
    + apply bool_decide_eq_false_1 in E.
      rewrite bool_decide_eq_false_2; [done|].
      intros [?|?]%elem_of_cons; congruence.
Qed.

(** An assignment never repeats a key. *)
Lemma NoDup_dict_set (d : dict) (k : string) (v : contenido) :
  NoDup (claves d) → NoDup (claves (dict_set d k v)).
Proof.
  intros Hd. rewrite claves_dict_set. case_bool_decide as Hk; [done|].
  apply NoDup_app. split_and!; [done| |apply NoDup_singleton].
  intros x Hx ->%list_elem_of_singleton. done.
Qed.

Lemma NoDup_asignar (kvs : list (string * contenido)) (d : dict) :
  NoDup (claves d) → NoDup (claves (asignar d kvs)).
Proof.
  revert d. induction kvs as [|[k v] kvs IH]; intros d Hd; simpl; [done|].
  apply IH. by apply NoDup_dict_set.
Qed.

Lemma NoDup_get_templates (nivel : Z) : NoDup (claves (get_templates nivel)).
Proof.
  unfold get_templates.
  repeat match goal with
         | |- context [if ?b then _ else _] => destruct b
         | |- NoDup (claves (asignar _ _)) => apply NoDup_asignar
         end; apply NoDup_nil_2.
Qed.

Lemma nivel_valido_casos (k : Z) :
  1 <= k <= 5 → k = 1 ∨ k = 2 ∨ k = 3 ∨ k = 4 ∨ k = 5.
Proof. lia. Qed.

(** C1 (as stated, refuted).  The path of level 1 is not a path of level 2,
    and [frontend.py] of level 2 is not a path of level 3: the inclusion
    does not hold for every pair of levels. *)
Lemma get_templates_inclusion_fails :
  "proyecto.py" ∈ rutas_de 1 ∧ ("proyecto.py" ∉ rutas_de 2) ∧
  "frontend.py" ∈ rutas_de 2 ∧ ("frontend.py" ∉ rutas_de 3) ∧
  ¬ (∀ k1 k2 : Z, 1 <= k1 → k1 < k2 → k2 <= 5 →
       rutas_de k1 ⊆ rutas_de k2).
Proof.
  assert (H12 : "proyecto.py" ∉ rutas_de 2)
    by (apply (bool_decide_eq_false_1 _); vm_compute; reflexivity).
  split_and!.
  - apply (bool_decide_eq_true_1 _). vm_compute. reflexivity.
  - exact H12.
  - apply (bool_decide_eq_true_1 _). vm_compute. reflexivity.
  - apply (bool_decide_eq_false_1 _). vm_compute. reflexivity.
  - intros H. apply H12, (H 1 2); [lia..|].
    apply (bool_decide_eq_true_1 _). vm_compute. reflexivity.
Qed.

(** C1 (amended).  For levels k1 < k2 in 1..5 the paths of k1 are among the
    paths of k2 exactly when k1 is at least 3: the levels 3, 4 and 5 extend
    one another, the levels 1 and 2 are sets of their own. *)
Theorem get_templates_inclusion (k1 k2 : Z) :
  1 <= k1 → k1 < k2 → k2 <= 5 →
  rutas_de k1 ⊆ rutas_de k2 ↔ 3 <= k1.
Proof.
  intros H1 H2 H3.
  assert (Hk1 : k1 = 1 ∨ k1 = 2 ∨ k1 = 3 ∨ k1 = 4 ∨ k1 = 5) by lia.
  assert (Hk2 : k2 = 1 ∨ k2 = 2 ∨ k2 = 3 ∨ k2 = 4 ∨ k2 = 5) by lia.
  destruct Hk1 as [->|[->|[->|[->| ->]]]];
    destruct Hk2 as [->|[->|[->|[->| ->]]]]; try lia;
    (split; [intros Hs|intros Hge]); try lia;
    solve
      [ exfalso; revert Hs; apply (bool_decide_eq_false_1 _);
        vm_compute; reflexivity
      | apply (bool_decide_eq_true_1 _); vm_compute; reflexivity ].
Qed.

Lemma get_templates_inclusion_witness :
  rutas_de 3 ⊆ rutas_de 4 ↔ 3 <= 3.
Proof. apply (get_templates_inclusion 3 4); lia. Defined.

(** C5.  The mapping of level 5 is the mapping of level 4, every entry
    kept with its content and its position, followed by thirteen entries:
    the ten files of [Presentation/], the two files of
    [Tests/test_presentation/] and [Docs/guia_estilo.md].  No path of
    level 5 is repeated, so the thirteen are new. *)
Theorem get_templates_nivel_5 :
  (∃ nuevas : dict,
     get_templates 5 = get_templates 4 ++ nuevas ∧
     claves nuevas =
       [ "Presentation/__init__.py";
         "Presentation/viewmodels/__init__.py";
         "Presentation/viewmodels/viewmodel_base.py";
         "Presentation/viewmodels/entidad_viewmodel.py";
         "Presentation/models/__init__.py";
         "Presentation/models/ui_entidad.py";
         "Presentation/models/validators.py";
         "Presentation/commands/__init__.py";
         "Presentation/commands/comando_base.py";
         "Presentation/commands/comandos_entidad.py";
         "Tests/test_presentation/__init__.py";
         "Tests/test_presentation/test_entidad_viewmodel.py";
         "Docs/guia_estilo.md" ]) ∧
  NoDup (rutas_de 5) ∧
  length (get_templates 5) = (length (get_templates 4) + 13)%nat.
Proof.
  split_and!.
  - eexists. split; vm_compute; reflexivity.
  - apply NoDup_get_templates.
  - vm_compute. reflexivity.
Qed.

(** C6.  Level 3 has the entity, the service, the SQL repository and the
    main view, and no path under [Tests/] or [Presentation/]. *)
Theorem get_templates_nivel_3 :
  "Domain/entidades/entidad.py" ∈ rutas_de 3 ∧
  "Application/servicios/servicio_entidad.py" ∈ rutas_de 3 ∧
  "Infrastructure/persistencia/repositorios/repositorio_entidad_sql.py"
    ∈ rutas_de 3 ∧
  "User_Interface/vistas/vista_principal.py" ∈ rutas_de 3 ∧
  Forall (λ p, String.prefix "Tests/" p = false ∧
               String.prefix "Presentation/" p = false) (rutas_de 3).
Proof.
  split_and!; apply (bool_decide_eq_true_1 _); vm_compute; reflexivity.
Qed.

(** C10.  Outside 1..5 the registry still returns: the mapping of level 5
    from 6 upwards, the empty mapping from 0 downwards. *)
Theorem get_templates_fuera_de_rango (nivel : Z) :
  nivel <= 0 ∨ 6 <= nivel →
  get_templates nivel = if nivel <=? 0 then [] else get_templates 5.
Proof.
  intros H. unfold get_templates at 1.
  destruct (Z.leb_spec nivel 0) as [Hle|Hgt].
  - replace (nivel =? 1) with false by lia.
    replace (nivel =? 2) with false by lia.
    replace (3 <=? nivel) with false by lia. done.
  - replace (nivel =? 1) with false by lia.
    replace (nivel =? 2) with false by lia.
    replace (3 <=? nivel) with true by lia.
    replace (4 <=? nivel) with true by lia.
    replace (5 <=? nivel) with true by lia. reflexivity.
Qed.

Lemma get_templates_fuera_de_rango_witness :
  get_templates 7 = get_templates 5 ∧ get_templates (-2) = [].
Proof.
  split.
  - apply (get_templates_fuera_de_rango 7). right. lia.
  - apply (get_templates_fuera_de_rango (-2)). left. lia.
Defined.

(** ** The filesystem primitives: properties *)

Lemma mundo_eta (w : mundo) : Mundo (disco w) (salida w) = w.
Proof. by destruct w. Qed.

Lemma os_mkdir_casos (p : ruta) (w : mundo) :
  (disco w !! p = None ∧ error_al_crear (disco w) p = None ∧
   os_mkdir p w = (Valor tt, Mundo (<[p := Directorio true]> (disco w)) (salida w)))
  ∨ (∃ o, os_mkdir p w = (Excepcion (OSError o), w) ∧
          ((o = FileExistsError ∧ is_Some (disco w !! p)) ∨
           (disco w !! p = None ∧ error_al_crear (disco w) p = Some o))).
Proof.
  unfold os_mkdir. destruct (disco w !! p) as [n|] eqn:Hp.
  - right. exists FileExistsError. split; [done|]. left. eauto.
  - destruct (error_al_crear (disco w) p) as [o|] eqn:He.
    + right. exists o. split; [done|]. by right.
    + left. done.
Qed.

Lemma error_al_crear_None (f : gmap ruta nodo) (p : ruta) :
  error_al_crear f p = None →
  ∃ x d, p = x :: d ∧ f !! d = Some (Directorio true).
Proof.
  destruct p as [|x d]; simpl; [done|].
  destruct (f !! d) as [[?|[]]|] eqn:E; try done. intros _. by exists x, d.
Qed.

Lemma error_al_crear_FNF (f : gmap ruta nodo) (p : ruta) :
  error_al_crear f p = Some FileNotFoundError → f !! padre p = None ∨ p = [].
Proof.
  destruct p as [|x d]; simpl; [by right|].
  destruct (f !! d) as [[?|[]]|]; try done. by left.
Qed.

Lemma bien_formado_insert_dir (f : gmap ruta nodo) (x : string) (d : ruta) :
  bien_formado f → es_directorio f d → f !! (x :: d) = None →
  bien_formado (<[x :: d := Directorio true]> f).
Proof.
  intros Hwf [b Hd] Hnone y q [n Hn].
  assert (Hq : es_directorio f q).
  { destruct (decide (x :: d = y :: q)) as [Heq|Hne].
    - simplify_eq. by exists b.
    - rewrite lookup_insert_ne in Hn by done. apply (Hwf y). eauto. }
  destruct Hq as [b' Hq]. exists b'.
  rewrite lookup_insert_ne; [done|]. intros <-. congruence.
Qed.

Lemma bien_formado_insert_archivo (f : gmap ruta nodo) (p : ruta) (s : string) :
  bien_formado f → f !! p = None → es_directorio f (padre p) → p ≠ [] →
  bien_formado (<[p := Archivo s]> f).
Proof.
  intros Hwf Hnone [b Hd] Hp y q [n Hn].
  assert (Hq : es_directorio f q).
  { destruct (decide (p = y :: q)) as [Heq|Hne].
    - subst p. by exists b.
    - rewrite lookup_insert_ne in Hn by done. apply (Hwf y). eauto. }
  destruct Hq as [b' Hq]. exists b'.
  rewrite lookup_insert_ne; [done|]. intros <-. congruence.
Qed.

Lemma es_directorio_mono (f f' : gmap ruta nodo) (p : ruta) :
  f ⊆ f' → es_directorio f p → es_directorio f' p.
Proof. intros Hs [b Hb]. exists b. by eapply lookup_weaken. Qed.

Lemma suffix_cons_casos {A} (d p : list A) (x : A) :
  d `suffix_of` x :: p → d = x :: p ∨ d `suffix_of` p.
Proof.
  destruct d as [|y d]; [right; apply suffix_nil|]. apply suffix_cons_inv.
Qed.

(** In a well-formed filesystem every ancestor of an entry is a
    directory. *)
Lemma bien_formado_ancestros (f : gmap ruta nodo) (p : ruta) :
  bien_formado f → is_Some (f !! p) →
  ∀ d, d `suffix_of` p → d ≠ p → es_directorio f d.
Proof.
  intros Hwf. induction p as [|x p IH]; intros Hp d Hd Hne.
  - apply suffix_nil_inv in Hd. done.
  - apply suffix_cons_casos in Hd as [->|Hd]; [done|].
    pose proof (Hwf x p Hp) as Hdir.
    destruct (decide (d = p)) as [->|Hdp]; [done|].
    apply IH; [|done..]. destruct Hdir as [b Hb]. eauto.
Qed.

(** What one [mkdir] does: nothing is printed, nothing is removed or
    changed, whatever is new is a directory on the way to [p]; on success
    [p] is a directory, on failure the filesystem is as before. *)
Lemma mkdir_sin_padres_spec (p : ruta) (w : mundo) (r : resultado unit)
    (w' : mundo) :
  mkdir_sin_padres p w = (r, w') →
  match r with
  | Valor _ =>
      (es_directorio (disco w) p ∧ w' = w) ∨
      (disco w !! p = None ∧ error_al_crear (disco w) p = None ∧
       w' = Mundo (<[p := Directorio true]> (disco w)) (salida w))
  | Excepcion e =>
      w' = w ∧ (∃ o, e = OSError o) ∧
      (is_Some (disco w !! p) ∨ is_Some (error_al_crear (disco w) p))
  end.
Proof.
  unfold mkdir_sin_padres, intentar.
  destruct (os_mkdir_casos p w) as [(Hn & He & ->)|(o & -> & Ho)].
  - intros [= <- <-]. right. done.
  - assert (Hmal : is_Some (disco w !! p)
                   ∨ is_Some (error_al_crear (disco w) p)).
    { destruct Ho as [[_ ?]|[_ ->]]; [by left|right; eauto]. }
    destruct o; desarmar;
      try (intros [= <- <-]; by eauto);
      (destruct (disco w !! p) as [[?|b]|] eqn:Hp; intros [= <- <-];
       [by eauto|left; split; [by exists b|done]|by eauto]).
Qed.

(** The handler of [mkdir] for an [OSError] other than a missing parent. *)
Lemma tolerar_spec (p : ruta) (e : excepcion) (w : mundo)
    (r : resultado unit) (w' : mundo) :
  (b ← is_dir p; if b : bool then ret tt else lanzar e) w = (r, w') →
  w' = w ∧ match r with
           | Valor _ => es_directorio (disco w) p
           | Excepcion e' => e' = e
           end.
Proof.
  desarmar. destruct (disco w !! p) as [[?|b]|] eqn:Hp; intros [= <- <-];
    split; try done. by exists b.
Qed.

Lemma mkdir_post_sin_cambio (p : ruta) (w : mundo) (r : resultado unit) :
  match r with
  | Valor _ => es_directorio (disco w) p
  | Excepcion e => ∃ o, e = OSError o
  end →
  mkdir_post p w r w.
Proof.
  intros Hr. unfold mkdir_post. split_and!; try done.
  - intros y n ? ?. congruence.
  - destruct r; done.
Qed.

Lemma mkdir_post_creado (x : string) (d : ruta) (w w1 : mundo) :
  mkdir_post d w (Valor tt) w1 →
  disco w !! (x :: d) = None →
  disco w1 !! d = Some (Directorio true) →
  mkdir_post (x :: d) w (Valor tt)
    (Mundo (<[x :: d := Directorio true]> (disco w1)) (salida w1)).
Proof.
  intros (Hs1 & Hsub1 & Hnew1 & Hwf1 & Hdir1 & _) Hn Hd1.
  assert (Hn1 : disco w1 !! (x :: d) = None).
  { destruct (disco w1 !! (x :: d)) as [n|] eqn:E; [|done].
    destruct (Hnew1 _ _ Hn E) as (Hsuf & _).
    by apply suffix_cons_not in Hsuf. }
  unfold mkdir_post. simpl. split_and!; [done| | | | |].
  - etrans; [done|]. by apply insert_subseteq.
  - intros y n Hy. rewrite lookup_insert. case_decide as Hyp.
    + intros [= <-]. by subst y.
    + intros Hy1. destruct (Hnew1 _ _ Hy Hy1) as (Hsuf & ? & ?).
      split_and!; [by apply suffix_cons_r|done..].
  - intros Hwf. apply bien_formado_insert_dir; [by apply Hwf1| |done].
    by exists true.
  - exists true. by rewrite lookup_insert_eq.
  - intros [? ?]. congruence.
Qed.

(** What one [mkdir] does: nothing is printed, nothing is removed or
    changed, whatever is new is a directory on the way to [p]; on success
    [p] is a directory, on failure the filesystem is as before. *)
Lemma mkdir_spec (p : ruta) (w : mundo) (r : resultado unit) (w' : mundo) :
  mkdir p w = (r, w') → mkdir_post p w r w'.
Proof.
  revert w r w'. induction p as [|x d IH]; intros w r w'; simpl;
    unfold intentar.
  { destruct (os_mkdir_casos [] w) as [(Hn & He & ->)|(o & -> & Ho)];
      [done|].
    destruct o; try (intros [? Hr]%tolerar_spec; subst w';
                     apply mkdir_post_sin_cambio; destruct r; eauto).
    intros [= <- <-]. apply mkdir_post_sin_cambio. eauto. }
  destruct (os_mkdir_casos (x :: d) w) as [(Hn & He & ->)|(o & -> & Ho)].
  - (* os.mkdir made the directory *)
    intros [= <- <-].
    apply error_al_crear_None in He as (x' & d' & [= <- <-] & Hd).
    apply (mkdir_post_creado x d w w); [|done..].
    apply mkdir_post_sin_cambio. by exists true.
  - destruct o; try (intros [? Hr]%tolerar_spec; subst w';
                     apply mkdir_post_sin_cambio; destruct r; eauto).
    (* the parent is missing *)
    destruct Ho as [[? _]|[Hn He]]; [done|].
    apply error_al_crear_FNF in He as [Hd|?]; [|done]. simpl in Hd.
    unfold mbind, M_bind, ligar.
    destruct (mkdir d w) as [[[]|e1] w1] eqn:Hrec; apply IH in Hrec.
    + assert (Hd1 : disco w1 !! d = Some (Directorio true)).
      { destruct Hrec as (_ & _ & Hnew1 & _ & [b Hb] & _).
        destruct (Hnew1 _ _ Hd Hb) as (_ & _ & [= ->]). done. }
      pose proof (mkdir_post_creado x d w w1 Hrec Hn Hd1) as Hpost.
      assert (Hn1 : disco w1 !! (x :: d) = None).
      { destruct Hrec as (_ & _ & Hnew1 & _).
        destruct (disco w1 !! (x :: d)) as [n|] eqn:E; [|done].
        destruct (Hnew1 _ _ Hn E) as (Hsuf & _).
        by apply suffix_cons_not in Hsuf. }
      intros Hrun. apply mkdir_sin_padres_spec in Hrun.
      destruct r as [[]|e].
      * destruct Hrun as [[[? ?] ->]|(_ & _ & ->)]; [congruence|done].
      * destruct Hrun as (_ & _ & [[? ?]|[? He1]]); [congruence|].
        simpl in He1. rewrite Hd1 in He1. done.
    + intros [= <- <-]. destruct Hrec as (? & ? & ? & ? & -> & ?).
      apply mkdir_post_sin_cambio. done.
Qed.

Lemma write_text_nuevo (p : ruta) (s : string) (w : mundo) :
  disco w !! p = None →
  (error_al_crear (disco w) p = None ∧
   write_text p s w = (Valor tt, Mundo (<[p := Archivo s]> (disco w)) (salida w)))
  ∨ (∃ o, error_al_crear (disco w) p = Some o ∧
          write_text p s w = (Excepcion (OSError o), w)).
Proof.
  intros Hn. unfold write_text, con_disco. rewrite Hn.
  destruct (error_al_crear (disco w) p) as [o|]; [right; eauto|by left].
Qed.

Lemma hacedero_cons (f : gmap ruta nodo) (x : string) (d : ruta) :
  hacedero f (x :: d) ↔
  match f !! (x :: d) with
  | Some (Directorio _) => True
  | Some (Archivo _) => False
  | None => hacedero f d ∧ (f !! d = None ∨ f !! d = Some (Directorio true))
  end.
Proof. done. Qed.

Lemma mkdir_exito (p : ruta) (w : mundo) :
  hacedero (disco w) p → ∃ w', mkdir p w = (Valor tt, w').
Proof.
  revert w. induction p as [|x d IH]; intros w.
  - simpl. unfold intentar, os_mkdir.
    destruct (disco w !! []) as [[?|b]|] eqn:Hp; [done| |done].
    intros _. desarmar. rewrite Hp. eauto.
  - rewrite hacedero_cons. simpl mkdir. unfold intentar.
    destruct (os_mkdir_casos (x :: d) w) as [(Hn & He & ->)|(o & -> & Ho)];
      [by eauto|].
    destruct Ho as [[-> [n Hn]]|[Hn He]].
    + rewrite Hn. destruct n as [?|b]; [done|]. intros _.
      desarmar. rewrite Hn. eauto.
    + rewrite Hn. intros [Hd Hpar]. simpl in He.
      destruct Hpar as [Hpar|Hpar]; rewrite Hpar in He; [|done].
      injection He as <-.
      destruct (IH w Hd) as [w1 Hrec].
      unfold mbind, M_bind, ligar. rewrite Hrec.
      apply mkdir_spec in Hrec as (_ & _ & Hnew1 & _ & [b Hb] & _).
      assert (Hd1 : disco w1 !! d = Some (Directorio true)).
      { destruct (Hnew1 _ _ Hpar Hb) as (_ & _ & [= ->]). done. }
      assert (Hn1 : disco w1 !! (x :: d) = None).
      { destruct (disco w1 !! (x :: d)) as [n|] eqn:E; [|done].
        destruct (Hnew1 _ _ Hn E) as (Hsuf & _).
        by apply suffix_cons_not in Hsuf. }
      unfold mkdir_sin_padres, intentar, os_mkdir. rewrite Hn1. simpl.
      rewrite Hd1. eauto.
Qed.

(** ** The materializer: properties *)

Section PropiedadesMaterializador.

Variable cuerpo : plantilla -> string.

Lemma suffix_tail_not (p : ruta) : p `suffix_of` tail p → p = [].
Proof.
  destruct p as [|x d]; [done|]. simpl. intros H.
  by apply suffix_cons_not in H.
Qed.

Lemma paso_spec (base : ruta) (rel : string) (c : contenido)
    (cuenta : nat * nat) (w : mundo) (r : resultado (nat * nat))
    (w' : mundo) :
  paso cuerpo base rel c cuenta w = (r, w') →
  paso_post cuerpo base rel c cuenta w r w'.
Proof.
  unfold paso, paso_post. destruct cuenta as [creados omitidos].
  set (t := unir base rel). unfold mbind, M_bind, ligar.
  destruct (mkdir (padre t) w) as [[[]|e1] w1] eqn:Hmk;
    pose proof Hmk as Hmk';
    apply mkdir_spec in Hmk as (Hs1 & Hsub1 & Hnew1 & Hwf1 & Hr1).
  2:{ intros [= <- <-]. destruct Hr1 as [-> ?]. split_and!; try done.
      - intros y n ? ?. congruence.
      - by left. }
  destruct Hr1 as [Hdir1 Hsame1].
  unfold exists_ at 1.
  destruct (disco w1 !! t) as [n|] eqn:Ht1.
  - (* the file is there: skipped *)
    unfold print, ret. intros [= <- <-]. simpl.
    assert (Ht : is_Some (disco w !! t)).
    { destruct (disco w !! t) as [n0|] eqn:Ht; [by eauto|].
      destruct (Hnew1 _ _ Ht Ht1) as (Hsuf & Hne & _).
      by apply suffix_tail_not in Hsuf. }
    split_and!; try done.
    + intros y n0 Hy Hy1. right. by apply Hnew1.
    + left. by rewrite Hs1.
  - (* the file is missing: written *)
    destruct (write_text_nuevo t (texto_de cuerpo c) w1 Ht1)
      as [[He ->]|(o & He & ->)].
    + unfold print, ret. intros [= <- <-]. simpl.
      apply error_al_crear_None in He as (x & d & Hxd & Hd).
      assert (Ht : disco w !! t = None)
        by (by eapply lookup_weaken_None).
      split_and!.
      * intros Hwf. apply bien_formado_insert_archivo; [by apply Hwf1|done| |].
        -- rewrite Hxd. by exists true.
        -- by rewrite Hxd.
      * etrans; [done|]. by apply insert_subseteq.
      * intros y n Hy. rewrite lookup_insert. case_decide as Hyt.
        -- intros [= <-]. by left.
        -- intros Hy1. right. by apply Hnew1.
      * eapply es_directorio_mono; [by apply insert_subseteq|done].
      * right. rewrite lookup_insert_eq, Hs1. done.
    + (* the parent cannot be written: it was there before [mkdir] *)
      intros [= <- <-].
      assert (w1 = w) as ->.
      { apply Hsame1. destruct t as [|x d]; simpl in *;
          [destruct Hdir1 as [? ?]; congruence|].
        destruct Hdir1 as [b Hb]. rewrite Hb in He. destruct b; [done|].
        destruct (disco w !! d) as [n0|] eqn:Hd0; [by eauto|].
        destruct (Hnew1 _ _ Hd0 Hb) as (_ & _ & ?); done. }
      split_and!; try done; try (by eauto);
        try (intros y n ? ?; congruence).
      right. split_and!; try done.
      unfold write_text. rewrite Ht1, He. done.
Qed.

(** *** The loop *)

Lemma bucle_crece (base : ruta) (items : dict) (cuenta : nat * nat)
    (w : mundo) (r : resultado (nat * nat)) (w' : mundo) :
  bucle cuerpo base items cuenta w = (r, w') →
  disco w ⊆ disco w' ∧ (bien_formado (disco w) → bien_formado (disco w')).
Proof.
  revert cuenta w. induction items as [|[rel c] items IH]; intros cuenta w.
  - intros [= <- <-]. done.
  - simpl. unfold mbind, M_bind, ligar.
    destruct (paso cuerpo base rel c cuenta w) as [[cuenta1|e] w1] eqn:Hp;
      apply paso_spec in Hp as (Hwf1 & Hsub1 & _).
    + intros (Hsub & Hwf)%IH. split; [by etrans|auto].
    + intros [= <- <-]. done.
Qed.

(** A loop that returns printed one line per item, in order, and counted
    the lines of each kind. *)
Lemma bucle_valor (base : ruta) (items : dict) (cuenta cuenta' : nat * nat)
    (w w' : mundo) :
  bucle cuerpo base items cuenta w = (Valor cuenta', w') →
  ∃ lineas,
    salida w' = salida w ++ lineas ∧
    Forall2 (informe cuerpo base (disco w) (disco w')) items lineas ∧
    cuenta' = ((cuenta.1 + contar es_creado lineas)%nat,
               (cuenta.2 + contar es_omitido lineas)%nat).
Proof.
  revert cuenta w. induction items as [|[rel c] items IH]; intros cuenta w.
  - intros [= <- <-]. exists []. rewrite app_nil_r. split_and!; [done..|].
    destruct cuenta. unfold contar. simpl. f_equal; lia.
  - simpl. unfold mbind, M_bind, ligar.
    destruct (paso cuerpo base rel c cuenta w) as [[cuenta1|e] w1] eqn:Hp;
      [|done].
    apply paso_spec in Hp as (_ & Hsub1 & _ & Hdir1 & Hcaso).
    intros Hrest. pose proof (bucle_crece _ _ _ _ _ _ Hrest) as [Hsub _].
    apply IH in Hrest as (lineas & Hsal & Hinf & ->).
    assert (Hcola : Forall2 (informe cuerpo base (disco w) (disco w')) items lineas).
    { eapply Forall2_impl; [done|]. intros it l (Hd & [Ho|(Hl & Hn & Ha)]).
      - split; [done|by left].
      - split; [done|]. right. split_and!; [done| |done].
        by eapply lookup_weaken_None. }
    destruct Hcaso as [(Hya & Hs1 & ->)|(Hn & Ha & Hs1 & ->)].
    + exists (ImpOmitido rel :: lineas). split_and!.
      * rewrite Hsal, Hs1, <- app_assoc. done.
      * constructor; [|done]. split; [by eapply es_directorio_mono|].
        left. split; [done|]. destruct Hya as [n Hn]. exists n.
        eapply lookup_weaken; [done|]. by etrans.
      * unfold contar. simpl. f_equal; lia.
    + exists (ImpCreado rel :: lineas). split_and!.
      * rewrite Hsal, Hs1, <- app_assoc. done.
      * constructor; [|done]. split; [by eapply es_directorio_mono|].
        right. split_and!; [done..|]. by eapply lookup_weaken.
      * unfold contar. simpl. f_equal; lia.
Qed.

(** A loop that raises stopped at one item: the items before it were
    processed and gave the final state, the failing turn changed nothing,
    and no later item was looked at. *)
Lemma bucle_excepcion (base : ruta) (items : dict) (cuenta : nat * nat)
    (w : mundo) (e : excepcion) (w' : mundo) :
  bucle cuerpo base items cuenta w = (Excepcion e, w') →
  ∃ hechos rel c resto cuenta1,
    items = hechos ++ (rel, c) :: resto ∧
    bucle cuerpo base hechos cuenta w = (Valor cuenta1, w') ∧
    paso cuerpo base rel c cuenta1 w' = (Excepcion e, w').
Proof.
  revert cuenta w. induction items as [|[rel c] items IH]; intros cuenta w.
  - done.
  - simpl. unfold mbind, M_bind, ligar.
    destruct (paso cuerpo base rel c cuenta w) as [[cuenta1|e1] w1] eqn:Hp.
    + intros (hechos & rel' & c' & resto & cuenta2 & -> & Hb & Hf)%IH.
      exists ((rel, c) :: hechos), rel', c', resto, cuenta2.
      split_and!; [done| |done]. simpl. unfold mbind, M_bind, ligar.
      by rewrite Hp.
    + intros [= <- <-]. pose proof Hp as Hp'.
      apply paso_spec in Hp' as (_ & _ & _ & -> & _).
      by exists [], rel, c, items, cuenta.
Qed.

Lemma mkdir_existente (p : ruta) (w : mundo) :
  es_directorio (disco w) p → mkdir p w = (Valor tt, w).
Proof.
  intros [b Hb].
  destruct p; simpl; unfold intentar, os_mkdir; rewrite Hb; desarmar;
    rewrite Hb; done.
Qed.

Lemma paso_omite (base : ruta) (rel : string) (c : contenido)
    (cuenta : nat * nat) (w : mundo) :
  is_Some (disco w !! unir base rel) →
  es_directorio (disco w) (padre (unir base rel)) →
  paso cuerpo base rel c cuenta w =
    (Valor (cuenta.1, S cuenta.2),
     Mundo (disco w) (salida w ++ [ImpOmitido rel])).
Proof.
  intros [n Hn] Hdir. unfold paso. destruct cuenta as [creados omitidos].
  unfold mbind, M_bind, ligar. rewrite (mkdir_existente _ _ Hdir).
  unfold exists_. rewrite Hn. done.
Qed.

(** Over a tree that already has every file, the loop skips them all and
    leaves the filesystem as it is. *)
Lemma bucle_omite (base : ruta) (items : dict) (cuenta : nat * nat)
    (w : mundo) :
  Forall (λ it : string * contenido,
            is_Some (disco w !! unir base it.1) ∧
            es_directorio (disco w) (padre (unir base it.1))) items →
  bucle cuerpo base items cuenta w =
    (Valor (cuenta.1, (cuenta.2 + length items)%nat),
     Mundo (disco w) (salida w ++ map ImpOmitido (claves items))).
Proof.
  revert cuenta w. induction items as [|[rel c] items IH]; intros cuenta w.
  - intros _. simpl. rewrite app_nil_r, Nat.add_0_r, mundo_eta.
    by destruct cuenta.
  - intros [[Hya Hdir] Hresto]%Forall_cons. simpl.
    unfold mbind, M_bind, ligar. rewrite (paso_omite _ _ _ _ _ Hya Hdir).
    rewrite IH by done. simpl. rewrite <- app_assoc. simpl.
    do 3 f_equal. lia.
Qed.

Lemma resumen_spec (creados omitidos : nat) (w : mundo) :
  resumen (creados, omitidos) w =
    (Valor tt, Mundo (disco w) (salida w ++ totales creados omitidos)).
Proof.
  unfold resumen, totales. desarmar.
  destruct (Nat.eqb omitidos 0); simpl; rewrite <- ?app_assoc; done.
Qed.

(** [generar_estructura] is the loop over the registry, then the totals
    when the loop returned. *)
Lemma generar_estructura_casos (nivel : Z) (base : ruta) (w : mundo)
    (r : resultado unit) (w' : mundo) :
  generar_estructura cuerpo nivel base w = (r, w') →
  (∃ e, r = Excepcion e ∧
        bucle cuerpo base (get_templates nivel) (0, 0)%nat w
          = (Excepcion e, w'))
  ∨ (∃ creados omitidos w1,
        r = Valor tt ∧
        bucle cuerpo base (get_templates nivel) (0, 0)%nat w
          = (Valor (creados, omitidos), w1) ∧
        w' = Mundo (disco w1) (salida w1 ++ totales creados omitidos)).
Proof.
  unfold generar_estructura, llamar_get_templates.
  unfold mbind, M_bind, ligar, ret.
  destruct (bucle cuerpo base (get_templates nivel) (0, 0)%nat w)
    as [[[creados omitidos]|e] w1] eqn:Hb.
  - rewrite resumen_spec. intros [= <- <-]. right. by eauto 10.
  - intros [= <- <-]. left. by eauto.
Qed.

(** *** The first run into an empty destination *)

Lemma unir_relativa (base : ruta) (rel : string) :
  relativa rel → unir base rel = cs rel ++ base ∧ cs rel ≠ [].
Proof.
  intros [Habs Hne]. unfold unir, cs. rewrite Habs. split; [done|].
  intros Hr. apply Hne. apply (f_equal (@rev string)) in Hr.
  by rewrite rev_involutive in Hr.
Qed.

Lemma hacedero_dir (f : gmap ruta nodo) (p : ruta) (b : bool) :
  f !! p = Some (Directorio b) → hacedero f p.
Proof. intros H. destruct p; simpl; by rewrite H. Qed.

Lemma hacedero_bajo (base : ruta) (f : gmap ruta nodo) (D : list ruta)
    (s : ruta) :
  solo_generado base f D →
  (∀ y, y `suffix_of` s → y ∉ D) →
  hacedero f (s ++ base) ∧
  (f !! (s ++ base) = None ∨ f !! (s ++ base) = Some (Directorio true)).
Proof.
  intros [Hbase Hinv]. induction s as [|z s IH]; intros HD.
  - simpl. split; [by eapply hacedero_dir|by right].
  - assert (Hpar : hacedero f (s ++ base) ∧
                   (f !! (s ++ base) = None
                    ∨ f !! (s ++ base) = Some (Directorio true))).
    { apply IH. intros y Hy. apply HD. by apply suffix_cons_r. }
    assert (Hyo : f !! ((z :: s) ++ base) = None
                  ∨ f !! ((z :: s) ++ base) = Some (Directorio true)).
    { destruct (f !! ((z :: s) ++ base)) as [n|] eqn:E; [|by left].
      destruct (Hinv (z :: s) n) as [[-> _]|[_ Hin]]; [done..|by right|].
      by apply HD in Hin. }
    split; [|done]. simpl. apply hacedero_cons. simpl in Hyo.
    destruct Hyo as [->| ->]; done.
Qed.

Lemma solo_generado_vacio (base : ruta) (f : gmap ruta nodo) :
  destino_vacio f base → solo_generado base f [].
Proof.
  intros [Hbase Hvacio]. split; [done|].
  intros s n Hs Hn. rewrite Hvacio in Hn; done.
Qed.

(** A turn of the loop for a new path of an area that holds only what the
    loop made: the file is created. *)
Lemma paso_crea (base : ruta) (rel : string) (c : contenido)
    (cuenta : nat * nat) (w : mundo) (D : list ruta) :
  solo_generado base (disco w) D →
  relativa rel →
  (∀ a, a ∈ D → ¬ a `suffix_of` cs rel ∧ ¬ cs rel `suffix_of` a) →
  ∃ w', paso cuerpo base rel c cuenta w = (Valor (S cuenta.1, cuenta.2), w') ∧
        salida w' = salida w ++ [ImpCreado rel] ∧
        disco w ⊆ disco w' ∧
        disco w' !! unir base rel = Some (Archivo (texto_de cuerpo c)) ∧
        solo_generado base (disco w') (D ++ [cs rel]).
Proof.
  intros Hinv Hrel HD.
  destruct (unir_relativa base rel Hrel) as [Ht Hne].
  destruct (cs rel) as [|x s] eqn:Hcs; [done|]. clear Hne.
  assert (Hs : ∀ y, y `suffix_of` s → y ∉ D).
  { intros y Hy Hin. apply HD in Hin as [Hin _]. apply Hin.
    by apply suffix_cons_r. }
  destruct (hacedero_bajo base (disco w) D s Hinv Hs) as [Hhac Hpar].
  assert (Hnt : disco w !! unir base rel = None).
  { rewrite Ht. destruct (disco w !! ((x :: s) ++ base)) as [n|] eqn:E;
      [|done].
    destruct Hinv as [_ Hinv].
    destruct (Hinv (x :: s) n) as [(_ & a & Ha & Hsuf & _)|[_ Hin]];
      [done..| |].
    - by apply HD in Ha as [_ Ha].
    - apply HD in Hin as [Hin _]. by destruct Hin. }
  destruct (paso cuerpo base rel c cuenta w) as [r w'] eqn:Hp.
  pose proof (paso_spec _ _ _ _ _ _ _ Hp) as (_ & Hsub & Hnew & Hr).
  rewrite Ht in Hr, Hnew. simpl in Hr, Hnew.
  destruct r as [cuenta'|e].
  - destruct Hr as (Hdir & [([n Hn] & _)|(_ & Ha & Hsal & ->)]);
      [rewrite Ht in Hnt; simpl in Hnt; congruence|].
    exists w'. split_and!; [done..|by rewrite Ht|].
    destruct Hinv as [Hbase Hinv]. split; [by eapply lookup_weaken|].
    intros y n Hy Hyn.
    destruct (disco w !! (y ++ base)) as [n0|] eqn:E.
    + rewrite (lookup_weaken _ _ _ _ E Hsub) in Hyn. injection Hyn as <-.
      destruct (Hinv y n0 Hy E) as [(-> & a & Hin & Hsuf)|[Harch Hin]].
      * left. split; [done|]. exists a. split; [|done].
        apply elem_of_app. by left.
      * right. split; [done|]. apply elem_of_app. by left.
    + destruct (Hnew _ _ E Hyn) as [[Heq ->]|(Hsuf & _ & ->)].
      * right. split; [by eauto|]. apply elem_of_app. right.
        apply list_elem_of_singleton.
        change (y ++ base = (x :: s) ++ base) in Heq.
        by apply app_inv_tail in Heq.
      * left. split; [done|]. exists (x :: s).
        apply suffix_app_inv in Hsuf.
        split_and!.
        -- apply elem_of_app. right. by apply list_elem_of_singleton.
        -- by apply suffix_cons_r.
        -- intros ->. by apply suffix_cons_not in Hsuf.
  - exfalso. destruct Hr as (-> & _ & [Hmk|(Hmk & _ & Hwr)]).
    + destruct (mkdir_exito _ _ Hhac) as [w1 Hok]. congruence.
    + apply mkdir_spec in Hmk as (_ & _ & _ & _ & [b Hb] & _).
      destruct Hpar as [Hpar|Hpar]; [congruence|].
      rewrite Ht in Hnt. simpl in Hnt.
      unfold write_text in Hwr. rewrite Hnt in Hwr. simpl in Hwr.
      rewrite Hpar in Hwr. done.
Qed.

Lemma sin_choques_cabeza (D L : list ruta) (a : ruta) :
  sin_choques (D ++ a :: L) →
  ∀ b, b ∈ D → ¬ b `suffix_of` a ∧ ¬ a `suffix_of` b.
Proof.
  intros [Hnd Hall] b Hb.
  assert (Hab : a ≠ b).
  { intros ->. apply NoDup_app in Hnd as (_ & Hnd & _).
    apply (Hnd b Hb). by left. }
  assert (Hina : a ∈ D ++ a :: L) by (apply elem_of_app; right; by left).
  assert (Hinb : b ∈ D ++ a :: L) by (apply elem_of_app; by left).
  rewrite Forall_forall in Hall. split; intros Hsuf.
  - pose proof (Hall b Hinb) as Hb'. rewrite Forall_forall in Hb'.
    by specialize (Hb' a Hina Hsuf).
  - pose proof (Hall a Hina) as Ha'. rewrite Forall_forall in Ha'.
    by specialize (Ha' b Hinb Hsuf).
Qed.

(** Over an area that holds only what the loop made, the loop creates
    every file. *)
Lemma bucle_crea (base : ruta) (items : dict) (D : list ruta)
    (cuenta : nat * nat) (w : mundo) :
  solo_generado base (disco w) D →
  Forall relativa (claves items) →
  sin_choques (D ++ map cs (claves items)) →
  ∃ w', bucle cuerpo base items cuenta w =
          (Valor ((cuenta.1 + length items)%nat, cuenta.2), w') ∧
        salida w' = salida w ++ map ImpCreado (claves items) ∧
        Forall (λ it : string * contenido,
                  disco w' !! unir base it.1
                    = Some (Archivo (texto_de cuerpo it.2))) items.
Proof.
  revert D cuenta w.
  induction items as [|[rel c] items IH]; intros D cuenta w Hinv Hrel Hsc.
  - exists w. simpl. rewrite app_nil_r, Nat.add_0_r.
    split_and!; [by destruct cuenta|done..].
  - simpl in Hrel, Hsc. apply Forall_cons in Hrel as [Hrel Hrels].
    destruct (paso_crea base rel c cuenta w D Hinv Hrel
                (sin_choques_cabeza _ _ _ Hsc))
      as (w1 & Hp & Hsal1 & Hsub1 & Ha1 & Hinv1).
    destruct (IH (D ++ [cs rel]) (S cuenta.1, cuenta.2) w1 Hinv1 Hrels)
      as (w' & Hb & Hsal & Hall).
    { by rewrite <- app_assoc. }
    exists w'. simpl. unfold mbind, M_bind, ligar. rewrite Hp, Hb.
    pose proof (bucle_crece _ _ _ _ _ _ Hb) as [Hsub _].
    split_and!.
    + simpl. do 3 f_equal. lia.
    + rewrite Hsal, Hsal1, <- app_assoc. done.
    + constructor; [|done]. by eapply lookup_weaken.
Qed.

(** *** A destination that is not there yet *)

Lemma mkdir_padre_ausente (x : string) (d : ruta) (w : mundo) :
  disco w !! (x :: d) = None → disco w !! d = None →
  mkdir (x :: d) w = (mkdir d ;; mkdir_sin_padres (x :: d)) w.
Proof.
  intros Hp Hd. simpl. unfold intentar, os_mkdir. rewrite Hp. simpl.
  rewrite Hd. done.
Qed.

Lemma mkdir_padre_listo (x : string) (d : ruta) (w : mundo) :
  disco w !! (x :: d) = None → disco w !! d = Some (Directorio true) →
  mkdir (x :: d) w
    = (Valor tt, Mundo (<[x :: d := Directorio true]> (disco w)) (salida w))
  ∧ mkdir_sin_padres (x :: d) w = mkdir (x :: d) w.
Proof.
  intros Hp Hd. simpl. unfold mkdir_sin_padres, intentar, os_mkdir.
  rewrite Hp. simpl. rewrite Hd. done.
Qed.

Lemma suffix_app_not (s base : ruta) : s ≠ [] → ¬ (s ++ base) `suffix_of` base.
Proof.
  intros Hs Hsuf%suffix_length. rewrite length_app in Hsuf.
  destruct s; [done|]. simpl in Hsuf. lia.
Qed.

(** Once [base] has been made, making a directory below it goes the same
    way as it does without. *)
Lemma mkdir_tras_base (base : ruta) (w wb : mundo) (s : ruta) :
  (∀ s, s ≠ [] → disco w !! (s ++ base) = None) →
  mkdir base w = (Valor tt, wb) →
  mkdir (s ++ base) w = mkdir (s ++ base) wb.
Proof.
  intros Hbajo Hmk.
  pose proof (mkdir_spec _ _ _ _ Hmk) as (_ & _ & Hnew & _ & Hdir & Hsame).
  destruct (disco w !! base) as [n|] eqn:Hbase.
  { rewrite Hsame; [done|by eauto]. }
  assert (Hb : disco wb !! base = Some (Directorio true)).
  { destruct Hdir as [b Hb].
    by destruct (Hnew _ _ Hbase Hb) as (_ & _ & [= ->]). }
  assert (Hbajo' : ∀ s, s ≠ [] → disco wb !! (s ++ base) = None).
  { intros s' Hs'. destruct (disco wb !! (s' ++ base)) as [n|] eqn:E; [|done].
    destruct (Hnew _ _ (Hbajo s' Hs') E) as (Hsuf & _).
    by apply suffix_app_not in Hsuf. }
  induction s as [|x s IH].
  - simpl. rewrite Hmk. symmetry. apply mkdir_existente. by exists true.
  - change ((x :: s) ++ base) with (x :: (s ++ base)).
    rewrite (mkdir_padre_ausente x (s ++ base) w).
    2:{ by apply (Hbajo (x :: s)). }
    2:{ destruct s; [done|]. by apply Hbajo. }
    unfold mbind, M_bind, ligar. rewrite IH.
    destruct s as [|y s].
    + simpl. rewrite (mkdir_existente base wb) by (by exists true).
      apply mkdir_padre_listo; [by apply (Hbajo' [x])|done].
    + rewrite (mkdir_padre_ausente x ((y :: s) ++ base) wb);
        [done|by apply (Hbajo' (x :: y :: s))|by apply Hbajo'].
Qed.

Lemma mkdir_base (base : ruta) (w : mundo) :
  destino_libre (disco w) base →
  ∃ wb, mkdir base w = (Valor tt, wb) ∧ salida wb = salida w ∧
        destino_vacio (disco wb) base.
Proof.
  intros (Hhac & Hesc & Hbajo).
  destruct (mkdir_exito _ _ Hhac) as [wb Hmk]. exists wb.
  pose proof (mkdir_spec _ _ _ _ Hmk)
    as (Hsal & Hsub & Hnew & _ & [b Hb] & _).
  split_and!; [done..|]. split.
  - destruct (disco w !! base) as [n|] eqn:Hbase.
    + rewrite (lookup_weaken _ _ _ _ Hbase Hsub) in Hb. injection Hb as ->.
      rewrite (Hesc b eq_refl) in Hbase. by eapply lookup_weaken.
    + by destruct (Hnew _ _ Hbase Hb) as (_ & _ & [= ->]).
  - intros s Hs. destruct (disco wb !! (s ++ base)) as [n|] eqn:E; [|done].
    destruct (Hnew _ _ (Hbajo s Hs) E) as (Hsuf & _).
    by apply suffix_app_not in Hsuf.
Qed.

(** The loop over an empty destination goes as it does once the
    destination has been made. *)
Lemma bucle_tras_base (base : ruta) (items : dict) (cuenta : nat * nat)
    (w wb : mundo) :
  (∀ s, s ≠ [] → disco w !! (s ++ base) = None) →
  mkdir base w = (Valor tt, wb) →
  items ≠ [] → Forall relativa (claves items) →
  bucle cuerpo base items cuenta w = bucle cuerpo base items cuenta wb.
Proof.
  intros Hbajo Hmk Hne Hrel. destruct items as [|[rel c] items]; [done|].
  apply Forall_cons in Hrel as [Hrel _].
  destruct (unir_relativa base rel Hrel) as [Ht Hcs].
  simpl. unfold mbind, M_bind, ligar, paso. destruct cuenta as [cr om].
  rewrite Ht. destruct (cs rel) as [|x s]; [done|]. simpl.
  unfold mbind, M_bind, ligar.
  rewrite (mkdir_tras_base base w wb s Hbajo Hmk). done.
Qed.

(** The paths of the registry are relative, distinct, and none is a
    directory of another. *)
Lemma rutas_sin_choques (nivel : Z) :
  1 <= nivel <= 5 →
  Forall relativa (rutas_de nivel) ∧ sin_choques (map cs (rutas_de nivel)).
Proof.
  intros H. destruct (nivel_valido_casos nivel H) as [->|[->|[->|[->| ->]]]];
    (split; apply (bool_decide_eq_true_1 _); vm_compute; reflexivity).
Qed.

Lemma longitud_get_templates (nivel : Z) :
  1 <= nivel <= 5 → (1 <= length (get_templates nivel))%nat.
Proof.
  intros H. destruct (nivel_valido_casos nivel H) as [->|[->|[->|[->| ->]]]];
    vm_compute; lia.
Qed.

(** *** The whole materialization *)

Lemma informe_existente (base : ruta) (f f' : gmap ruta nodo)
    (items : dict) (lineas : list impresion) :
  Forall2 (informe cuerpo base f f') items lineas →
  Forall (λ it : string * contenido,
            is_Some (f' !! unir base it.1) ∧
            es_directorio f' (padre (unir base it.1))) items.
Proof.
  induction 1 as [|it l items lineas (Hdir & [[_ Hya]|(_ & _ & Ha)]) _ IH];
    constructor; done.
Qed.

Lemma informe_linea (base : ruta) (f f' : gmap ruta nodo)
    (items : dict) (lineas : list impresion) (l : impresion) :
  Forall2 (informe cuerpo base f f') items lineas → l ∈ lineas →
  ∃ it, it ∈ items ∧ informe cuerpo base f f' it l.
Proof.
  induction 1 as [|it l' items lineas Hit _ IH]; [by intros ?%elem_of_nil|].
  intros [->|Hin]%elem_of_cons.
  - exists it. split; [by left|done].
  - destruct (IH Hin) as (it' & ? & ?). exists it'. split; [by right|done].
Qed.

Lemma informe_item (base : ruta) (f f' : gmap ruta nodo)
    (items : dict) (lineas : list impresion) (it : string * contenido) :
  Forall2 (informe cuerpo base f f') items lineas → it ∈ items →
  ∃ l, l ∈ lineas ∧ informe cuerpo base f f' it l.
Proof.
  induction 1 as [|it' l items lineas Hit _ IH]; [by intros ?%elem_of_nil|].
  intros [->|Hin]%elem_of_cons.
  - exists l. split; [by left|done].
  - destruct (IH Hin) as (l' & ? & ?). exists l'. split; [by right|done].
Qed.


Lemma totales_sin_informes (creados omitidos : nat) (l : impresion) :
  l ∈ totales creados omitidos → es_creado l = false ∧ es_omitido l = false.
Proof.
  unfold totales. destruct (Nat.eqb omitidos 0); simpl; intros H;
    repeat (apply elem_of_cons in H as [->|H]; [done|]);
    by apply elem_of_nil in H.
Qed.

Lemma generar_estructura_spec (nivel : Z) (base : ruta) (w : mundo)
    (r : resultado unit) (w' : mundo) :
  generar_estructura cuerpo nivel base w = (r, w') →
  disco w ⊆ disco w' ∧
  (bien_formado (disco w) → bien_formado (disco w')) ∧
  ∃ hechos informes,
    Forall2 (informe cuerpo base (disco w) (disco w')) hechos informes ∧
    match r with
    | Valor _ =>
        hechos = get_templates nivel ∧
        salida w' = salida w ++ informes
          ++ totales (contar es_creado informes) (contar es_omitido informes)
    | Excepcion e =>
        salida w' = salida w ++ informes ∧
        ∃ rel c resto cuenta,
          get_templates nivel = hechos ++ (rel, c) :: resto ∧
          bucle cuerpo base hechos (0, 0)%nat w = (Valor cuenta, w') ∧
          paso cuerpo base rel c cuenta w' = (Excepcion e, w')
    end.
Proof.
  intros [(e & -> & Hb)|(cr & om & w1 & -> & Hb & ->)]%generar_estructura_casos.
  - pose proof (bucle_crece _ _ _ _ _ _ Hb) as [Hsub Hwf].
    apply bucle_excepcion in Hb
      as (hechos & rel & c & resto & cuenta & Hitems & Hb & Hp).
    destruct (bucle_valor _ _ _ _ _ _ Hb) as (informes & Hsal & Hinf & _).
    split_and!; [done..|]. exists hechos, informes.
    split_and!; [done..|]. by exists rel, c, resto, cuenta.
  - pose proof (bucle_crece _ _ _ _ _ _ Hb) as [Hsub Hwf].
    destruct (bucle_valor _ _ _ _ _ _ Hb) as (informes & Hsal & Hinf & Hc).
    simpl in Hc. injection Hc as -> ->. simpl.
    split_and!; [done..|]. exists (get_templates nivel), informes.
    split_and!; [done..|]. rewrite Hsal, <- app_assoc. done.
Qed.

(** C2 (amended).  When the materialization raises, it stopped at one item
    of the registry: the items before it were processed and left exactly
    the final state, the error is the [OSError] of the [mkdir] or of the
    [write_text] of that item, which changed nothing, no later item was
    touched, and the output has the lines of the items processed and no
    line of totals. *)
Theorem generar_estructura_fallo (nivel : Z) (base : ruta) (w : mundo)
    (e : excepcion) (w' : mundo) :
  generar_estructura cuerpo nivel base w = (Excepcion e, w') →
  ∃ hechos rel c resto cuenta informes,
    get_templates nivel = hechos ++ (rel, c) :: resto ∧
    bucle cuerpo base hechos (0, 0)%nat w = (Valor cuenta, w') ∧
    (∃ o, e = OSError o) ∧
    (mkdir (padre (unir base rel)) w' = (Excepcion e, w') ∨
     (mkdir (padre (unir base rel)) w' = (Valor tt, w') ∧
      disco w' !! unir base rel = None ∧
      write_text (unir base rel) (texto_de cuerpo c) w'
        = (Excepcion e, w'))) ∧
    salida w' = salida w ++ informes ∧
    Forall2 (informe cuerpo base (disco w) (disco w')) hechos informes ∧
    ∀ n, (ImpTotalCreados n ∉ informes) ∧ (ImpTotalOmitidos n ∉ informes).
Proof.
  intros (_ & _ & hechos & informes & Hinf & Hsal
          & rel & c & resto & cuenta & Hitems & Hb & Hp)%generar_estructura_spec.
  exists hechos, rel, c, resto, cuenta, informes.
  apply paso_spec in Hp as (_ & _ & _ & _ & Ho & Hprim).
  split_and!; try done.
  intros n. split; intros Hin;
    destruct (informe_linea _ _ _ _ _ _ Hinf Hin)
      as (it & _ & _ & [[? _]|[? _]]); done.
Qed.


Lemma informe_directorios (base : ruta) (f f' : gmap ruta nodo)
    (it : string * contenido) (l : impresion) :
  bien_formado f' → informe cuerpo base f f' it l →
  ∀ d, d `suffix_of` padre (unir base it.1) → es_directorio f' d.
Proof.
  intros Hwf [Hdir _] d Hd.
  destruct (decide (d = padre (unir base it.1))) as [->|Hne]; [done|].
  eapply bien_formado_ancestros; [done| |done..].
  destruct Hdir as [b Hb]. eauto.
Qed.

Lemma generar_estructura_bucle (nivel : Z) (base : ruta) (w w1 : mundo)
    (creados omitidos : nat) :
  bucle cuerpo base (get_templates nivel) (0, 0)%nat w
    = (Valor (creados, omitidos), w1) →
  generar_estructura cuerpo nivel base w
    = (Valor tt, Mundo (disco w1) (salida w1 ++ totales creados omitidos)).
Proof.
  intros Hb. unfold generar_estructura, llamar_get_templates.
  unfold mbind, M_bind, ligar, ret. rewrite Hb. apply resumen_spec.
Qed.

(** The first run over an empty destination creates every file. *)
Lemma primera_vuelta (nivel : Z) (base : ruta) (w : mundo) :
  1 <= nivel <= 5 →
  destino_libre (disco w) base →
  ∃ w1, bucle cuerpo base (get_templates nivel) (0, 0)%nat w
          = (Valor (length (get_templates nivel), 0%nat), w1) ∧
        salida w1 = salida w ++ map ImpCreado (rutas_de nivel) ∧
        Forall (λ it : string * contenido,
                  disco w1 !! unir base it.1
                    = Some (Archivo (texto_de cuerpo it.2)))
               (get_templates nivel).
Proof.
  intros Hniv Hlibre.
  destruct (rutas_sin_choques nivel Hniv) as [Hrel Hsc].
  pose proof (longitud_get_templates nivel Hniv) as Hlen.
  destruct (mkdir_base base w Hlibre) as (wb & Hmk & Hsalb & Hvacio).
  destruct (bucle_crea base (get_templates nivel) [] (0, 0)%nat wb
              (solo_generado_vacio _ _ Hvacio) Hrel Hsc)
    as (w1 & Hb1 & Hsal1 & Harch).
  exists w1. split_and!; [|by rewrite Hsal1, Hsalb|done].
  destruct Hlibre as (_ & _ & Hbajo).
  rewrite (bucle_tras_base base _ _ w wb Hbajo Hmk); [done| |done].
  intros E. rewrite E in Hlen. simpl in Hlen. lia.
Qed.

(** C8.  Over a well-formed filesystem, whatever the destination and
    whether it was there or not: every file that the materialization
    created lies in a chain of directories that goes up to the root; when
    the materialization returns, this holds for every path of the level,
    and the file is there; and it does return for a level of 1..5 over an
    empty destination, be it a directory or a path that is not there and
    can be made.  The filesystem stays well formed. *)
Theorem generar_estructura_crea_directorios (nivel : Z) (base : ruta)
    (w : mundo) (r : resultado unit) (w' : mundo) :
  bien_formado (disco w) →
  generar_estructura cuerpo nivel base w = (r, w') →
  bien_formado (disco w') ∧
  (1 <= nivel <= 5 → destino_libre (disco w) base → r = Valor tt) ∧
  ∃ lineas,
    salida w' = salida w ++ lineas ∧
    (∀ rel d, ImpCreado rel ∈ lineas →
              d `suffix_of` padre (unir base rel) →
              es_directorio (disco w') d) ∧
    (r = Valor tt →
     ∀ rel d, rel ∈ rutas_de nivel →
              is_Some (disco w' !! unir base rel) ∧
              (d `suffix_of` padre (unir base rel) →
               es_directorio (disco w') d)).
Proof.
  intros Hwf0 Hrun.
  pose proof (generar_estructura_spec _ _ _ _ _ Hrun)
    as (Hsub & Hwf & hechos & informes & Hinf & Hr).
  specialize (Hwf Hwf0). split; [done|]. split.
  { intros Hniv Hlibre.
    destruct (primera_vuelta nivel base w Hniv Hlibre) as (w1 & Hb1 & _).
    rewrite (generar_estructura_bucle _ _ _ _ _ _ Hb1) in Hrun. congruence. }
  assert (Hcre : ∀ rel d, ImpCreado rel ∈ informes →
                   d `suffix_of` padre (unir base rel) →
                   es_directorio (disco w') d).
  { intros rel d Hl Hd.
    destruct (informe_linea _ _ _ _ _ _ Hinf Hl) as (it & _ & Hit).
    pose proof Hit as (_ & [[? _]|([= ->] & _)]); [done|].
    by eapply informe_directorios. }
  destruct r as [[]|e].
  - destruct Hr as [-> Hsal]. eexists. split; [done|]. split.
    + intros rel d [?|Ht]%elem_of_app; [by eauto|].
      by apply totales_sin_informes in Ht as [? _].
    + intros _ rel d ([rel' c] & [= <-] & Hin)%list_elem_of_fmap.
      destruct (informe_item _ _ _ _ _ _ Hinf Hin) as (l & _ & Hit).
      split; [|by apply (informe_directorios _ _ _ _ _ Hwf Hit)].
      destruct Hit as (_ & [[_ ?]|(_ & _ & ?)]); [done|by eauto].
  - destruct Hr as [Hsal _]. exists informes. split_and!; [done..|].
    intros [=].
Qed.

(** C4.  For a level of 1..5 and an empty destination (a directory with
    nothing in it that can be written, or a path that is not there and
    can be made): the first run returns, creates the N files of the
    level and skips none; the second run returns, prints one line of
    skipped file per path, in order, then 0 created and N skipped, and
    leaves the whole filesystem, so the content of every file, as the
    first run left it. *)
Theorem generar_estructura_idempotente (nivel : Z) (base : ruta)
    (w : mundo) :
  1 <= nivel <= 5 →
  destino_libre (disco w) base →
  ∃ w1 w2,
    generar_estructura cuerpo nivel base w = (Valor tt, w1) ∧
    salida w1 = salida w ++ map ImpCreado (rutas_de nivel)
      ++ [ImpVacia; ImpTotalCreados (length (get_templates nivel));
          ImpVacia] ∧
    generar_estructura cuerpo nivel base w1 = (Valor tt, w2) ∧
    salida w2 = salida w1 ++ map ImpOmitido (rutas_de nivel)
      ++ [ImpVacia; ImpTotalCreados 0;
          ImpTotalOmitidos (length (get_templates nivel)); ImpVacia] ∧
    disco w2 = disco w1 ∧
    Forall (λ it : string * contenido,
              disco w2 !! unir base it.1
                = Some (Archivo (texto_de cuerpo it.2)))
           (get_templates nivel).
Proof.
  intros Hniv Hlibre.
  destruct (rutas_sin_choques nivel Hniv) as [Hrel Hsc].
  pose proof (longitud_get_templates nivel Hniv) as Hlen.
  destruct (primera_vuelta nivel base w Hniv Hlibre)
    as (w1 & Hb1 & Hsal1 & Harch).
  pose proof (generar_estructura_bucle _ _ _ _ _ _ Hb1) as Hg1.
  destruct (bucle_valor _ _ _ _ _ _ Hb1) as (informes & _ & Hinf & _).
  apply informe_existente in Hinf.
  set (w1' := Mundo (disco w1)
                (salida w1 ++ totales (length (get_templates nivel)) 0)).
  pose proof (bucle_omite base (get_templates nivel) (0, 0)%nat w1' Hinf)
    as Hb2.
  simpl in Hb2.
  pose proof (generar_estructura_bucle _ _ _ _ _ _ Hb2) as Hg2.
  eexists w1', _. split_and!; [exact Hg1| |exact Hg2| |done|done].
  - simpl. rewrite Hsal1, <- app_assoc. done.
  - simpl. rewrite <- app_assoc. do 2 f_equal. unfold totales.
    destruct (length (get_templates nivel)); [lia|done].
Qed.

End PropiedadesMaterializador.

(** ** The entry point: properties *)

Section PropiedadesMain.

Variable cuerpo : plantilla -> string.
Variable resolver : string -> resultado ruta.
Variable modo_interactivo : M (Z * ruta).

Lemma conserva_ligar {A B} (m : M A) (k : A → M B) :
  conserva m → (∀ a, conserva (k a)) → conserva (m ≫= k).
Proof.
  intros Hm Hk w r w'. unfold mbind, M_bind, ligar.
  destruct (m w) as [[a|e] w1] eqn:E.
  - intros Hka. etrans; [by eapply Hm|by eapply Hk].
  - intros [= <- <-]. by eapply Hm.
Qed.

Lemma conserva_ret {A} (a : A) : conserva (ret a).
Proof. by intros w r w' [= <- <-]. Qed.

Lemma conserva_lanzar {A} (e : excepcion) : conserva (@lanzar A e).
Proof. by intros w r w' [= <- <-]. Qed.

Lemma conserva_elevar {A} (r0 : resultado A) : conserva (elevar r0).
Proof. by intros w r w' [= <- <-]. Qed.

Lemma conserva_print (x : impresion) : conserva (print x).
Proof. by intros w r w' [= <- <-]. Qed.

Lemma conserva_mkdir (p : ruta) : conserva (mkdir p).
Proof. intros w r w' H. by apply mkdir_spec in H as (_ & ? & _). Qed.

Lemma conserva_generar_estructura (nivel : Z) (base : ruta) :
  conserva (generar_estructura cuerpo nivel base).
Proof. intros w r w' H. by apply generar_estructura_spec in H as (? & _). Qed.

Lemma conserva_pasos_siguientes (nivel : Z) (base : ruta) :
  conserva (pasos_siguientes nivel base).
Proof.
  unfold pasos_siguientes.
  repeat match goal with
         | |- context [if ?b then _ else _] => destruct b
         end;
    repeat (apply conserva_ligar; [apply conserva_print|intros _]);
    apply conserva_print.
Qed.

Lemma conserva_main (args : Namespace) :
  conserva modo_interactivo →
  conserva (main cuerpo resolver modo_interactivo args).
Proof.
  intros Hmodo. unfold main. apply conserva_ligar.
  { destruct (_ && _); [|done].
    apply conserva_ligar; [apply conserva_elevar|intros destino].
    apply conserva_ret. }
  intros [nivel base].
  apply conserva_ligar; [apply conserva_print|intros _].
  apply conserva_ligar.
  { unfold nombre_nivel. destruct (NIVELES nivel);
      [apply conserva_ret|apply conserva_lanzar]. }
  intros nombre.
  do 3 (apply conserva_ligar; [apply conserva_print|intros _]).
  apply conserva_ligar; [apply conserva_mkdir|intros _].
  apply conserva_ligar; [apply conserva_generar_estructura|intros _].
  do 3 (apply conserva_ligar; [apply conserva_print|intros _]).
  apply conserva_ligar; [apply conserva_pasos_siguientes|intros _].
  apply conserva_print.
Qed.

(** C9.  [main] gives the same result and the same final state with
    [--forzar] and without it, whatever the other arguments and the
    state; and with [--forzar] a file that is there keeps its content.
    The interactive session is taken to leave the filesystem alone. *)
Theorem main_ignora_forzar (nivel : option Z) (destino : option string)
    (w : mundo) :
  (∀ w0 r0 w0', modo_interactivo w0 = (r0, w0') → disco w0' = disco w0) →
  main cuerpo resolver modo_interactivo
    {| args_nivel := nivel; args_ruta := destino; args_forzar := true |} w
  = main cuerpo resolver modo_interactivo
    {| args_nivel := nivel; args_ruta := destino; args_forzar := false |} w
  ∧ ∀ p s r w',
      disco w !! p = Some (Archivo s) →
      main cuerpo resolver modo_interactivo
        {| args_nivel := nivel; args_ruta := destino; args_forzar := true |} w
        = (r, w') →
      disco w' !! p = Some (Archivo s).
Proof.
  intros Hmodo. split; [reflexivity|].
  intros p s r w' Hp Hrun. eapply lookup_weaken; [done|].
  eapply conserva_main; [|done].
  intros w0 r0 w0' H0. by rewrite (Hmodo _ _ _ H0).
Qed.

End PropiedadesMain.

(** ** The model on sample inputs *)

Lemma disco_proj_vacio : destino_vacio disco_proj ["proj"; "tmp"].
Proof.
  split; [reflexivity|]. intros s Hs. unfold disco_proj, disco_raiz.
  assert (Hlen : (3 <= length (s ++ ["proj"; "tmp"]))%nat).
  { rewrite length_app. destruct s; [done|simpl; lia]. }
  rewrite !lookup_insert_ne, lookup_singleton_ne;
    [done|intros E; rewrite <- E in Hlen; simpl in Hlen; lia..].
Qed.

Lemma disco_proj_libre : destino_libre disco_proj ["proj"; "tmp"].
Proof.
  destruct disco_proj_vacio as [Hbase Hbajo]. split_and!; [|by intros [] [=]|done].
  by eapply hacedero_dir.
Qed.

Lemma disco_raiz_bien_formado : bien_formado disco_raiz.
Proof.
  intros x p [n Hn]. unfold disco_raiz in Hn.
  by rewrite lookup_singleton_ne in Hn.
Qed.

(** C2 (as stated, refuted).  Level 3 into [/tmp/proj] where [Domain] is a
    regular file: two files are created, then [mkdir] raises
    [FileExistsError] and nothing else is printed: there is no line of
    totals. *)
Lemma generar_estructura_fallo_sin_totales :
  let run := generar_estructura cuerpo_muestra 3 ["proj"; "tmp"]
               (Mundo disco_ocupado []) in
  run.1 = Excepcion (OSError FileExistsError) ∧
  salida run.2 = [ImpCreado "backend.py"; ImpCreado "bootstrap.py"] ∧
  ¬ (∀ cuerpo nivel base w e w',
       1 <= nivel <= 5 →
       generar_estructura cuerpo nivel base w = (Excepcion e, w') →
       ∃ creados, ImpTotalCreados creados ∈ salida w').
Proof.
  intros run.
  assert (H1 : run.1 = Excepcion (OSError FileExistsError))
    by (vm_compute; reflexivity).
  assert (H2 : salida run.2
               = [ImpCreado "backend.py"; ImpCreado "bootstrap.py"])
    by (vm_compute; reflexivity).
  split_and!; [done..|]. intros H.
  destruct (H cuerpo_muestra 3 ["proj"; "tmp"] (Mundo disco_ocupado [])
              (OSError FileExistsError) run.2) as [n Hn]; [lia| |].
  - rewrite <- H1. apply surjective_pairing.
  - rewrite H2 in Hn.
    repeat (apply elem_of_cons in Hn as [Hn|Hn]; [done|]).
    by apply elem_of_nil in Hn.
Qed.

Lemma generar_estructura_fallo_witness :
  let w := Mundo disco_ocupado [] in
  let w' := (generar_estructura cuerpo_muestra 3 ["proj"; "tmp"] w).2 in
  let e := OSError FileExistsError in
  ∃ hechos rel c resto cuenta informes,
    get_templates 3 = hechos ++ (rel, c) :: resto ∧
    bucle cuerpo_muestra ["proj"; "tmp"] hechos (0, 0)%nat w
      = (Valor cuenta, w') ∧
    (∃ o, e = OSError o) ∧
    (mkdir (padre (unir ["proj"; "tmp"] rel)) w' = (Excepcion e, w') ∨
     (mkdir (padre (unir ["proj"; "tmp"] rel)) w' = (Valor tt, w') ∧
      disco w' !! unir ["proj"; "tmp"] rel = None ∧
      write_text (unir ["proj"; "tmp"] rel) (texto_de cuerpo_muestra c) w'
        = (Excepcion e, w'))) ∧
    salida w' = salida w ++ informes ∧
    Forall2 (informe cuerpo_muestra ["proj"; "tmp"] (disco w) (disco w'))
      hechos informes ∧
    ∀ n, (ImpTotalCreados n ∉ informes) ∧ (ImpTotalOmitidos n ∉ informes).
Proof.
  apply (generar_estructura_fallo cuerpo_muestra 3 ["proj"; "tmp"]
           (Mundo disco_ocupado []) (OSError FileExistsError)).
  vm_compute. reflexivity.
Defined.


Lemma generar_estructura_idempotente_witness :
  1 <= 3 <= 5 ∧
  destino_libre disco_proj ["proj"; "tmp"] ∧
  ∃ w1 w2,
    generar_estructura cuerpo_muestra 3 ["proj"; "tmp"] (Mundo disco_proj [])
      = (Valor tt, w1) ∧
    salida w1 = [] ++ map ImpCreado (rutas_de 3)
      ++ [ImpVacia; ImpTotalCreados (length (get_templates 3)); ImpVacia] ∧
    generar_estructura cuerpo_muestra 3 ["proj"; "tmp"] w1 = (Valor tt, w2) ∧
    salida w2 = salida w1 ++ map ImpOmitido (rutas_de 3)
      ++ [ImpVacia; ImpTotalCreados 0;
          ImpTotalOmitidos (length (get_templates 3)); ImpVacia] ∧
    disco w2 = disco w1 ∧
    Forall (λ it : string * contenido,
              disco w2 !! unir ["proj"; "tmp"] it.1
                = Some (Archivo (texto_de cuerpo_muestra it.2)))
           (get_templates 3).
Proof.
  split; [lia|]. split; [apply disco_proj_libre|].
  apply (generar_estructura_idempotente cuerpo_muestra 3 ["proj"; "tmp"]
           (Mundo disco_proj [])).
  - lia.
  - apply disco_proj_libre.
Defined.

(** The destination [/tmp/proj] is not there, nor is [/tmp]. *)
Lemma generar_estructura_crea_directorios_witness :
  let w := Mundo disco_raiz [] in
  let run := generar_estructura cuerpo_muestra 3 ["proj"; "tmp"] w in
  bien_formado (disco w) ∧
  disco w !! ["proj"; "tmp"] = None ∧
  run.1 = Valor tt ∧
  bien_formado (disco run.2) ∧
  (1 <= 3 <= 5 → destino_libre (disco w) ["proj"; "tmp"] → run.1 = Valor tt) ∧
  ∃ lineas,
    salida run.2 = salida w ++ lineas ∧
    (∀ rel d, ImpCreado rel ∈ lineas →
              d `suffix_of` padre (unir ["proj"; "tmp"] rel) →
              es_directorio (disco run.2) d) ∧
    (run.1 = Valor tt →
     ∀ rel d, rel ∈ rutas_de 3 →
              is_Some (disco run.2 !! unir ["proj"; "tmp"] rel) ∧
              (d `suffix_of` padre (unir ["proj"; "tmp"] rel) →
               es_directorio (disco run.2) d)).
Proof.
  split; [apply disco_raiz_bien_formado|].
  split; [vm_compute; reflexivity|].
  split; [vm_compute; reflexivity|].
  apply (generar_estructura_crea_directorios cuerpo_muestra 3
           ["proj"; "tmp"] (Mundo disco_raiz [])).
  - apply disco_raiz_bien_formado.
  - apply surjective_pairing.
Defined.

Lemma sesion_muestra_disco (w0 : mundo) (r0 : resultado (Z * ruta))
    (w0' : mundo) :
  sesion_muestra w0 = (r0, w0') → disco w0' = disco w0.
Proof. by intros [= <- <-]. Qed.

Lemma main_ignora_forzar_witness :
  let w := Mundo disco_editado [] in
  let con := {| args_nivel := Some 2; args_ruta := Some "/tmp/proj";
                args_forzar := true |} in
  let sin := {| args_nivel := Some 2; args_ruta := Some "/tmp/proj";
                args_forzar := false |} in
  main cuerpo_muestra resolver_muestra sesion_muestra con w
  = main cuerpo_muestra resolver_muestra sesion_muestra sin w
  ∧ ∀ p s r w',
      disco w !! p = Some (Archivo s) →
      main cuerpo_muestra resolver_muestra sesion_muestra con w = (r, w') →
      disco w' !! p = Some (Archivo s).
Proof.
  apply (main_ignora_forzar cuerpo_muestra resolver_muestra sesion_muestra
           (Some 2) (Some "/tmp/proj") (Mundo disco_editado [])).
  apply sesion_muestra_disco.
Defined.

(** ** More on the registry *)

Lemma get_templates_casos (nivel : Z) :
  (nivel <= 0 ∧ get_templates nivel = []) ∨
  (nivel = 1 ∧ get_templates nivel = get_templates 1) ∨
  (nivel = 2 ∧ get_templates nivel = get_templates 2) ∨
  (nivel = 3 ∧ get_templates nivel = get_templates 3) ∨
  (nivel = 4 ∧ get_templates nivel = get_templates 4) ∨
  (5 <= nivel ∧ get_templates nivel = get_templates 5).
Proof.
  destruct (Z.le_gt_cases nivel 0) as [H0|H0].
  { left. split; [done|]. unfold get_templates.
    replace (nivel =? 1) with false by lia.
    replace (nivel =? 2) with false by lia.
    replace (3 <=? nivel) with false by lia. done. }
  destruct (Z.le_gt_cases 5 nivel) as [H5|H5].
  { do 5 right. split; [done|]. unfold get_templates at 1.
    replace (nivel =? 1) with false by lia.
    replace (nivel =? 2) with false by lia.
    replace (3 <=? nivel) with true by lia.
    replace (4 <=? nivel) with true by lia.
    replace (5 <=? nivel) with true by lia. reflexivity. }
  assert (nivel = 1 ∨ nivel = 2 ∨ nivel = 3 ∨ nivel = 4) as Hc by lia.
  destruct Hc as [->|[->|[->| ->]]]; auto 10.
Qed.

(** X1.  The registry returns the empty mapping exactly for the levels
    below 1: every level from 1 upwards has at least one file. *)
Theorem get_templates_vacio (nivel : Z) :
  get_templates nivel = [] ↔ nivel <= 0.
Proof.
  destruct (get_templates_casos nivel)
    as [[H ->]|[[-> _]|[[-> _]|[[-> _]|[[-> _]|[H ->]]]]]];
    (split; [intros E|intros Hle]); try done; try lia;
    by vm_compute in E.
Qed.

Ltac sublista :=
  repeat first [ apply sublist_nil | apply sublist_skip | apply sublist_cons ].

(** The levels from 3 upwards, as sublists. *)
Lemma sublista_de_niveles (k1 k2 : Z) :
  3 <= k1 → k1 <= k2 →
  get_templates k1 `sublist_of` get_templates k2.
Proof.
  intros H3 H12.
  destruct (get_templates_casos k1)
    as [[H _]|[[H _]|[[H _]|[[H ->]|[[H ->]|[H ->]]]]]]; try lia;
    destruct (get_templates_casos k2)
      as [[H' _]|[[H' _]|[[H' _]|[[H' ->]|[[H' ->]|[H' ->]]]]]]; try lia;
    vm_compute; sublista.
Qed.

(** X2.  From level 3 upwards a higher level keeps every entry of a lower
    one, path and content, in the same relative order: for all integers
    3 <= k1 <= k2 the mapping of k1 is a sublist of the mapping of k2. *)
Theorem get_templates_sublista (k1 k2 : Z) :
  3 <= k1 → k1 <= k2 →
  get_templates k1 `sublist_of` get_templates k2.
Proof. exact (sublista_de_niveles k1 k2). Qed.

Lemma get_templates_sublista_witness :
  get_templates 3 `sublist_of` get_templates 5.
Proof. apply (get_templates_sublista 3 5); lia. Defined.

Lemma elem_of_colas {A} (l d : list A) : d `suffix_of` l → d ∈ colas l.
Proof.
  induction l as [|x l IH]; intros Hd.
  - apply suffix_nil_inv in Hd as ->. by left.
  - apply suffix_cons_casos in Hd as [->|Hd]; [by left|].
    simpl. right. by apply IH.
Qed.

Lemma en_paquetes_get_templates (nivel : Z) :
  Forall (en_paquetes (rutas_de nivel)) (rutas_de nivel).
Proof.
  unfold rutas_de.
  destruct (get_templates_casos nivel)
    as [[H ->]|[[_ ->]|[[_ ->]|[[_ ->]|[[_ ->]|[H ->]]]]]];
    apply (bool_decide_eq_true_1 _); vm_compute; reflexivity.
Qed.

(** X3.  In every level, each directory on the way from the destination to
    a Python file of the level is a Python package: its [__init__.py] is a
    path of the same level. *)
Theorem get_templates_paquetes (nivel : Z) (rel : string) (d : ruta) :
  rel ∈ rutas_de nivel →
  termina_en ".py" rel = true →
  d ≠ [] → d `suffix_of` padre (cs rel) →
  ∃ rel', rel' ∈ rutas_de nivel ∧ cs rel' = "__init__.py" :: d.
Proof.
  intros Hrel Hpy Hd Hsuf.
  pose proof (en_paquetes_get_templates nivel) as Hall.
  rewrite Forall_forall in Hall. specialize (Hall rel Hrel Hpy).
  rewrite Forall_forall in Hall.
  destruct (Hall d (elem_of_colas _ _ Hsuf)) as [?|Hex]; [done|].
  by apply Exists_exists in Hex.
Qed.

Lemma get_templates_paquetes_witness :
  ∃ rel', rel' ∈ rutas_de 5 ∧
          cs rel' = "__init__.py" :: ["persistencia"; "Infrastructure"].
Proof.
  apply (get_templates_paquetes 5
           "Infrastructure/persistencia/repositorios/repositorio_entidad_sql.py").
  - apply (bool_decide_eq_true_1 _). vm_compute. reflexivity.
  - vm_compute. reflexivity.
  - discriminate.
  - exists ["repositorios"]. vm_compute. reflexivity.
Defined.

(** ** More on the materializer *)

Lemma rutas_sin_choques_Z (nivel : Z) :
  Forall relativa (rutas_de nivel) ∧ sin_choques (map cs (rutas_de nivel)).
Proof.
  unfold rutas_de.
  destruct (get_templates_casos nivel)
    as [[H ->]|[[_ ->]|[[_ ->]|[[_ ->]|[[_ ->]|[H ->]]]]]];
    (split; apply (bool_decide_eq_true_1 _); vm_compute; reflexivity).
Qed.

Lemma suffix_app_casos (y s base : ruta) :
  y `suffix_of` s ++ base →
  (∃ s', y = s' ++ base ∧ s' `suffix_of` s) ∨ y `suffix_of` base.
Proof.
  induction s as [|x s IH]; simpl; intros Hy; [by right|].
  apply suffix_cons_casos in Hy as [->|Hy].
  - left. by exists (x :: s).
  - destruct (IH Hy) as [(s' & -> & Hs')|?]; [|by right].
    left. exists s'. split; [done|]. by apply suffix_cons_r.
Qed.

Section MasMaterializador.

Variable cuerpo : plantilla -> string.

(** What is new after the loop was put there by one of its turns. *)
Lemma bucle_nuevos (base : ruta) (items : dict) (cuenta : nat * nat)
    (w : mundo) (r : resultado (nat * nat)) (w' : mundo) (y : ruta)
    (n : nodo) :
  bucle cuerpo base items cuenta w = (r, w') →
  disco w !! y = None → disco w' !! y = Some n →
  ∃ rel c, (rel, c) ∈ items ∧
    ((y = unir base rel ∧ n = Archivo (texto_de cuerpo c)) ∨
     (y `suffix_of` padre (unir base rel) ∧ y ≠ [] ∧ n = Directorio true)).
Proof.
  revert cuenta w. induction items as [|[rel c] items IH]; intros cuenta w.
  - intros [= <- <-] ? ?. congruence.
  - simpl. unfold mbind, M_bind, ligar.
    destruct (paso cuerpo base rel c cuenta w) as [[cuenta1|e] w1] eqn:Hp;
      apply paso_spec in Hp as (_ & _ & Hnew & _).
    + intros Hresto Hy Hy'.
      destruct (disco w1 !! y) as [n1|] eqn:Hy1.
      * pose proof (bucle_crece _ _ _ _ _ _ _ Hresto) as [Hsub _].
        rewrite (lookup_weaken _ _ _ _ Hy1 Hsub) in Hy'. injection Hy' as ->.
        exists rel, c. split; [by left|]. by apply Hnew.
      * destruct (IH _ _ Hresto Hy1 Hy') as (rel' & c' & Hin & Hc).
        exists rel', c'. split; [by right|done].
    + intros [= <- <-] Hy Hy'. exists rel, c. split; [by left|].
      by apply Hnew.
Qed.

(** X4.  The materialization changes no entry that is there, and what it
    adds is below the destination, or is a directory on the way to the
    destination that was missing. *)
Theorem generar_estructura_solo_destino (nivel : Z) (base : ruta)
    (w : mundo) (r : resultado unit) (w' : mundo) :
  generar_estructura cuerpo nivel base w = (r, w') →
  disco w ⊆ disco w' ∧
  ∀ y n, disco w !! y = None → disco w' !! y = Some n →
    (base `suffix_of` y ∧ y ≠ base) ∨
    (y `suffix_of` base ∧ n = Directorio true).
Proof.
  intros Hrun.
  pose proof (generar_estructura_spec _ _ _ _ _ _ Hrun) as (Hsub & _).
  split; [done|]. intros y n Hy Hy'.
  assert (∃ cuenta r0 w0,
            bucle cuerpo base (get_templates nivel) cuenta w = (r0, w0)
            ∧ disco w0 = disco w') as (cuenta & r0 & w0 & Hb & Hd).
  { apply generar_estructura_casos in Hrun
      as [(e & _ & Hb)|(cr & om & w1 & _ & Hb & ->)]; eauto 10. }
  rewrite <- Hd in Hy'.
  destruct (bucle_nuevos _ _ _ _ _ _ _ _ Hb Hy Hy') as (rel & c & Hin & Hc).
  destruct (rutas_sin_choques_Z nivel) as [Hrel _].
  rewrite Forall_forall in Hrel.
  assert (Hr : relativa rel).
  { apply Hrel. apply list_elem_of_fmap. by exists (rel, c). }
  destruct (unir_relativa base rel Hr) as [Ht Hne].
  rewrite Ht in Hc. destruct (cs rel) as [|x s]; [done|]. simpl in Hc.
  destruct Hc as [[-> _]|(Hsuf & _ & ->)].
  - left. split; [by apply (suffix_app_r _ _ (x :: s))|].
    intros E. apply (suffix_app_not (x :: s) base); [done|].
    simpl. by rewrite E.
  - apply suffix_app_casos in Hsuf as [(s' & -> & _)|Hsuf]; [|by right].
    destruct s' as [|z s']; [by right|].
    left. split; [by apply (suffix_app_r _ _ (z :: s'))|].
    intros E. apply (suffix_app_not (z :: s') base); [done|]. by rewrite E.
Qed.

(** Two paths of a list without clashes go to different places, and
    neither place is on the way to the other. *)
Lemma destinos_sin_choque (base : ruta) (rel rel' : string) :
  relativa rel → relativa rel' →
  cs rel' ≠ cs rel →
  (cs rel' `suffix_of` cs rel → cs rel' = cs rel) →
  unir base rel' ≠ unir base rel ∧
  ¬ unir base rel' `suffix_of` padre (unir base rel).
Proof.
  intros Hr Hr' Hne Hsuf.
  destruct (unir_relativa base rel Hr) as [-> Hn].
  destruct (unir_relativa base rel' Hr') as [-> Hn'].
  split.
  - intros E. by apply app_inv_tail in E.
  - destruct (cs rel) as [|x s] eqn:E; [done|]. simpl.
    intros [(s' & Es & Hs')|Hb]%suffix_app_casos.
    + apply app_inv_tail in Es. apply Hne, Hsuf. rewrite Es.
      by apply suffix_cons_r.
    + by apply suffix_app_not in Hb.
Qed.

Lemma sin_choques_cons (a : ruta) (L : list ruta) :
  sin_choques (a :: L) →
  sin_choques L ∧
  ∀ b, b ∈ L → b ≠ a ∧ (b `suffix_of` a → b = a) ∧ (a `suffix_of` b → a = b).
Proof.
  intros [Hnd Hall]. apply NoDup_cons in Hnd as [Ha Hnd].
  apply Forall_cons in Hall as [Hpa Hall].
  apply Forall_cons in Hpa as [_ Hpa]. split.
  - split; [done|]. eapply Forall_impl; [done|].
    intros b Hb. by apply Forall_cons in Hb as [_ Hb].
  - intros b Hb. rewrite Forall_forall in Hall, Hpa.
    split_and!; [by intros ->| |by apply Hpa].
    pose proof (Hall b Hb) as Hba. by apply Forall_cons in Hba as [Hba _].
Qed.

(** A turn of the loop leaves the other places of the list as they were:
    there or missing. *)
Lemma paso_presencia (base : ruta) (rel rel' : string) (c : contenido)
    (cuenta : nat * nat) (w : mundo) (r : resultado (nat * nat))
    (w' : mundo) :
  relativa rel → relativa rel' →
  cs rel' ≠ cs rel →
  (cs rel' `suffix_of` cs rel → cs rel' = cs rel) →
  paso cuerpo base rel c cuenta w = (r, w') →
  disco w' !! unir base rel' = disco w !! unir base rel'.
Proof.
  intros Hr Hr' Hne Hsuf Hp.
  apply paso_spec in Hp as (_ & Hsub & Hnew & _).
  destruct (destinos_sin_choque base rel rel' Hr Hr' Hne Hsuf) as [Hd Ha].
  destruct (disco w !! unir base rel') as [n|] eqn:E.
  - by eapply lookup_weaken.
  - destruct (disco w' !! unir base rel') as [n|] eqn:E'; [|done].
    destruct (Hnew _ _ E E') as [[? _]|[? _]]; done.
Qed.

Lemma contar_app (p : impresion → bool) (l k : list impresion) :
  contar p (l ++ k) = (contar p l + contar p k)%nat.
Proof. unfold contar. by rewrite List.filter_app, length_app. Qed.

Lemma bucle_informes (base : ruta) (items : dict) (cuenta cuenta' : nat * nat)
    (w w' : mundo) :
  Forall relativa (claves items) →
  sin_choques (map cs (claves items)) →
  bucle cuerpo base items cuenta w = (Valor cuenta', w') →
  let informes := map (linea_esperada (disco w) base) (claves items) in
  salida w' = salida w ++ informes ∧
  cuenta' = ((cuenta.1 + contar es_creado informes)%nat,
             (cuenta.2 + contar es_omitido informes)%nat).
Proof.
  revert cuenta w.
  induction items as [|[rel c] items IH]; intros cuenta w Hrel Hsc.
  - intros [= <- <-]. simpl. rewrite app_nil_r. split; [done|].
    destruct cuenta. unfold contar. simpl. f_equal; lia.
  - simpl in Hrel, Hsc. apply Forall_cons in Hrel as [Hr Hrel].
    apply sin_choques_cons in Hsc as [Hsc Hcab].
    simpl. unfold mbind, M_bind, ligar.
    destruct (paso cuerpo base rel c cuenta w) as [[cuenta1|e] w1] eqn:Hp;
      [|done].
    intros Hresto. destruct (IH _ _ Hrel Hsc Hresto) as [Hsal ->].
    assert (Hmismas :
      map (linea_esperada (disco w1) base) (claves items)
      = map (linea_esperada (disco w) base) (claves items)).
    { apply map_ext_in. intros rel' Hin'%list_elem_of_In.
      unfold linea_esperada.
      assert (Hcs : cs rel' ∈ map cs (claves items))
        by (apply list_elem_of_fmap; eauto).
      destruct (Hcab _ Hcs) as (Hne & Hsuf & _).
      rewrite Forall_forall in Hrel.
      by rewrite (paso_presencia base rel rel' c cuenta w _ w1
                    Hr (Hrel _ Hin') Hne Hsuf Hp). }
    rewrite Hmismas in Hsal |- *. clear Hmismas.
    apply paso_spec in Hp as (_ & _ & _ & _ & Hcaso).
    cbv zeta. simpl map.
    destruct Hcaso as [(Hya & Hs1 & ->)|(Hn & _ & Hs1 & ->)].
    + assert (linea_esperada (disco w) base rel = ImpOmitido rel) as ->.
      { unfold linea_esperada. by rewrite bool_decide_eq_true_2. }
      split.
      * rewrite Hsal, Hs1, <- app_assoc. done.
      * unfold contar. simpl. f_equal; lia.
    + assert (linea_esperada (disco w) base rel = ImpCreado rel) as ->.
      { unfold linea_esperada. rewrite bool_decide_eq_false_2; [done|].
        rewrite Hn. by intros [? ?]. }
      split.
      * rewrite Hsal, Hs1, <- app_assoc. done.
      * unfold contar. simpl. f_equal; lia.
Qed.

Lemma contar_lineas_esperadas (f : gmap ruta nodo) (base : ruta)
    (ks : list string) :
  (contar es_creado (map (linea_esperada f base) ks)
   + contar es_omitido (map (linea_esperada f base) ks))%nat = length ks.
Proof.
  unfold contar. induction ks as [|k ks IH]; [done|]. simpl.
  assert (linea_esperada f base k = ImpOmitido k
          ∨ linea_esperada f base k = ImpCreado k) as [-> | ->]
    by (unfold linea_esperada; case_bool_decide; auto);
    simpl; lia.
Qed.

(** The output of a run that returns, from the filesystem it found. *)
Lemma informe_de_la_corrida (nivel : Z) (base : ruta)
    (w w' : mundo) :
  generar_estructura cuerpo nivel base w = (Valor tt, w') →
  let informes := map (linea_esperada (disco w) base) (rutas_de nivel) in
  salida w' = salida w ++ informes
    ++ totales (contar es_creado informes) (contar es_omitido informes) ∧
  (contar es_creado informes + contar es_omitido informes)%nat
    = length (get_templates nivel).
Proof.
  intros [(e & [=] & _)|(cr & om & w1 & _ & Hb & ->)]%generar_estructura_casos.
  destruct (rutas_sin_choques_Z nivel) as [Hrel Hsc].
  destruct (bucle_informes _ _ _ _ _ _ Hrel Hsc Hb) as [Hsal [= -> ->]].
  simpl. split.
  - rewrite Hsal, <- app_assoc. done.
  - rewrite contar_lineas_esperadas. unfold rutas_de, claves.
    by rewrite length_map.
Qed.

(** X5.  When the materialization returns, its output is settled by which
    files were there before the run: one line per path of the level, in
    the order of the registry, that says skipped when the file was there
    and created when it was not, then the totals, which count those lines
    and add up to the number of files of the level. *)
Theorem generar_estructura_informe (nivel : Z) (base : ruta)
    (w w' : mundo) :
  generar_estructura cuerpo nivel base w = (Valor tt, w') →
  let informes := map (linea_esperada (disco w) base) (rutas_de nivel) in
  salida w' = salida w ++ informes
    ++ totales (contar es_creado informes) (contar es_omitido informes) ∧
  (contar es_creado informes + contar es_omitido informes)%nat
    = length (get_templates nivel).
Proof. exact (informe_de_la_corrida nivel base w w'). Qed.

(** *** The tree that a run leaves *)

Lemma elem_of_colas_iff {A} (l d : list A) : d ∈ colas l ↔ d `suffix_of` l.
Proof.
  split; [|apply elem_of_colas].
  induction l as [|x l IH]; simpl.
  - intros [->|?%elem_of_nil]%elem_of_cons; done.
  - intros [->|Hd]%elem_of_cons; [done|]. by apply suffix_cons_r, IH.
Qed.

Lemma elem_of_pares (base : ruta) (items : dict) (y : ruta) (n : nodo) :
  (y, n) ∈ pares cuerpo base items ↔
  ∃ rel c, (rel, c) ∈ items ∧
    ((y = unir base rel ∧ n = Archivo (texto_de cuerpo c)) ∨
     (y `suffix_of` padre (unir base rel) ∧ y ≠ [] ∧ n = Directorio true)).
Proof.
  induction items as [|[rel c] items IH]; simpl.
  - split; [by intros ?%elem_of_nil|].
    by intros (? & ? & ?%elem_of_nil & _).
  - rewrite elem_of_cons, elem_of_app, IH. split.
    + intros [[= -> ->]|[Hd|(rel' & c' & Hin & Hc)]].
      * exists rel, c. split; [by left|by left].
      * apply list_elem_of_fmap in Hd as (d & [= -> ->] & Hd).
        apply list_elem_of_filter in Hd as [Hne Hd].
        apply elem_of_colas_iff in Hd.
        exists rel, c. split; [by left|by right].
      * exists rel', c'. split; [by right|done].
    + intros (rel' & c' & [[= -> ->]|Hin]%elem_of_cons & Hc).
      * destruct Hc as [[-> ->]|(Hsuf & Hne & ->)]; [by left|].
        right. left. apply list_elem_of_fmap. exists y. split; [done|].
        apply list_elem_of_filter. split; [done|].
        by apply elem_of_colas_iff.
      * right. right. by exists rel', c'.
Qed.

Lemma NoDup_fmap_elem {A B} (g : A → B) (l : list A) (x y : A) :
  NoDup (map g l) → x ∈ l → y ∈ l → g x = g y → x = y.
Proof.
  induction l as [|a l IH]; simpl; [by intros _ ?%elem_of_nil|].
  intros [Ha Hnd]%NoDup_cons [->|Hx]%elem_of_cons [->|Hy]%elem_of_cons E;
    [done| | |by apply IH].
  - exfalso. apply Ha. rewrite E. apply list_elem_of_fmap. by exists y.
  - exfalso. apply Ha. rewrite <- E. apply list_elem_of_fmap. by exists x.
Qed.

Lemma sin_choques_elem (L : list ruta) (a b : ruta) :
  sin_choques L → a ∈ L → b ∈ L → a `suffix_of` b → a = b.
Proof.
  intros [_ Hall] Ha Hb. rewrite Forall_forall in Hall.
  pose proof (Hall a Ha) as Hab. rewrite Forall_forall in Hab. by apply Hab.
Qed.

(** Without clashes a place has one entry: one file with one text, or a
    directory. *)
Lemma pares_funcional (base : ruta) (items : dict) (y : ruta)
    (n1 n2 : nodo) :
  Forall relativa (claves items) →
  sin_choques (map cs (claves items)) →
  (y, n1) ∈ pares cuerpo base items → (y, n2) ∈ pares cuerpo base items →
  n1 = n2.
Proof.
  intros Hrel Hsc
    (rel1 & c1 & Hin1 & Hc1)%elem_of_pares (rel2 & c2 & Hin2 & Hc2)%elem_of_pares.
  rewrite Forall_forall in Hrel.
  assert (Hk1 : rel1 ∈ claves items)
    by (apply list_elem_of_fmap; by exists (rel1, c1)).
  assert (Hk2 : rel2 ∈ claves items)
    by (apply list_elem_of_fmap; by exists (rel2, c2)).
  assert (Hcs1 : cs rel1 ∈ map cs (claves items))
    by (apply list_elem_of_fmap; eauto).
  assert (Hcs2 : cs rel2 ∈ map cs (claves items))
    by (apply list_elem_of_fmap; eauto).
  assert (Hchoque : ∀ ra rb, ra ∈ claves items → rb ∈ claves items →
            cs ra ∈ map cs (claves items) → cs rb ∈ map cs (claves items) →
            y = unir base ra → y ≠ [] →
            y `suffix_of` padre (unir base rb) → False).
  { intros ra rb Ha Hb Hca Hcb -> Hne Hsuf.
    destruct (decide (cs ra = cs rb)) as [E|E].
    - destruct (unir_relativa base ra (Hrel _ Ha)) as [Hta _].
      destruct (unir_relativa base rb (Hrel _ Hb)) as [Htb _].
      rewrite Htb, <- E, <- Hta in Hsuf. by apply suffix_tail_not in Hsuf.
    - destruct (destinos_sin_choque base rb ra (Hrel _ Hb) (Hrel _ Ha) E)
        as [_ Hno]; [|done].
      by apply (sin_choques_elem (map cs (claves items))). }
  destruct Hc1 as [[Hy1 ->]|(Hs1 & Hne1 & ->)],
           Hc2 as [[Hy2 ->]|(Hs2 & Hne2 & ->)]; [| | |done].
  - assert ((rel1, c1) = (rel2, c2)) as [= _ ->]; [|done].
    apply (NoDup_fmap_elem (λ it : string * contenido, cs it.1) items);
      [|done..|].
    + destruct Hsc as [Hnd _]. unfold claves in Hnd.
      by rewrite map_map in Hnd.
    + simpl. destruct (unir_relativa base rel1 (Hrel _ Hk1)) as [Ht1 _].
      destruct (unir_relativa base rel2 (Hrel _ Hk2)) as [Ht2 _].
      rewrite Hy1, Ht1, Ht2 in Hy2. by apply app_inv_tail in Hy2.
  - exfalso. by apply (Hchoque rel1 rel2).
  - exfalso. by apply (Hchoque rel2 rel1).
Qed.

(** The filesystem after a run that returns. *)
Lemma disco_tras_generar (nivel : Z) (base : ruta) (w w' : mundo) :
  bien_formado (disco w) →
  generar_estructura cuerpo nivel base w = (Valor tt, w') →
  disco w' = disco w ∪ arbol cuerpo base (get_templates nivel).
Proof.
  intros Hwf0 Hrun.
  pose proof (generar_estructura_spec _ _ _ _ _ _ Hrun)
    as (Hsub & Hwf & hechos & informes & Hinf & -> & _).
  specialize (Hwf Hwf0).
  apply generar_estructura_casos in Hrun
    as [(e & [=] & _)|(cr & om & w1 & _ & Hb & Hw')].
  assert (Hd : disco w' = disco w1) by (by rewrite Hw').
  destruct (rutas_sin_choques_Z nivel) as [Hrel Hsc].
  assert (Hestan : ∀ y n, (y, n) ∈ pares cuerpo base (get_templates nivel) →
                          is_Some (disco w' !! y)).
  { intros y n (rel & c & Hin & Hc)%elem_of_pares.
    destruct (informe_item _ _ _ _ _ _ _ Hinf Hin) as (l & _ & Hit).
    destruct Hc as [[-> _]|(Hsuf & _ & _)].
    - destruct Hit as (_ & [[_ ?]|(_ & _ & ?)]); [done|by eauto].
    - destruct (informe_directorios _ _ _ _ _ _ Hwf Hit y Hsuf) as [b Hb'].
      eauto. }
  apply map_eq. intros y.
  destruct (disco w !! y) as [n|] eqn:Hy.
  { rewrite (lookup_weaken _ _ _ _ Hy Hsub). symmetry.
    by apply lookup_union_Some_l. }
  rewrite lookup_union_r by done. unfold arbol.
  destruct (disco w' !! y) as [n|] eqn:Hy'.
  - symmetry. rewrite Hd in Hy'.
    pose proof (bucle_nuevos _ _ _ _ _ _ _ _ Hb Hy Hy') as Hnew.
    apply elem_of_pares in Hnew.
    apply elem_of_list_to_map_1'; [|done].
    intros n' Hn'. by eapply pares_funcional.
  - symmetry. apply not_elem_of_list_to_map_1.
    intros ([y' n] & Ey & Hin)%list_elem_of_fmap. simpl in Ey. subst y'.
    destruct (Hestan _ _ Hin) as [? ?]. congruence.
Qed.

(** X6.  Over a well-formed filesystem, a materialization that returns
    leaves the filesystem it found with the tree of the level added where
    entries were missing: every entry that was there stays, every file of
    the level that was missing has the text of its template, and every
    directory on the way that was missing is there. *)
Theorem generar_estructura_arbol (nivel : Z) (base : ruta) (w w' : mundo) :
  bien_formado (disco w) →
  generar_estructura cuerpo nivel base w = (Valor tt, w') →
  disco w' = disco w ∪ arbol cuerpo base (get_templates nivel).
Proof. exact (disco_tras_generar nivel base w w'). Qed.

(** *** One level over another *)

Lemma compatibles_elem (L : list ruta) (a b : ruta) :
  compatibles L → a ∈ L → b ∈ L → a `suffix_of` b → a = b.
Proof.
  intros Hall Ha Hb. unfold compatibles in Hall.
  rewrite Forall_forall in Hall.
  pose proof (Hall a Ha) as Hab. rewrite Forall_forall in Hab. by apply Hab.
Qed.

Lemma compatibles_incl (L L' : list ruta) :
  L' ⊆ L → compatibles L → compatibles L'.
Proof.
  intros Hsub Hc. unfold compatibles. rewrite Forall_forall. intros a Ha.
  rewrite Forall_forall. intros b Hb.
  apply (compatibles_elem L); [done|by apply Hsub..].
Qed.

(** Below [base] the loop over an empty destination leaves only what it
    made. *)
Lemma solo_generado_tras_bucle (base : ruta) (items : dict)
    (cuenta : nat * nat) (w : mundo) (r : resultado (nat * nat))
    (w' : mundo) :
  destino_vacio (disco w) base →
  Forall relativa (claves items) →
  bucle cuerpo base items cuenta w = (r, w') →
  solo_generado base (disco w') (map cs (claves items)).
Proof.
  intros [Hbase Hbajo] Hrel Hb.
  pose proof (bucle_crece _ _ _ _ _ _ _ Hb) as [Hsub _].
  split; [by eapply lookup_weaken|]. intros s n Hs Hn.
  destruct (bucle_nuevos _ _ _ _ _ _ _ _ Hb (Hbajo s Hs) Hn)
    as (rel & c & Hin & Hc).
  rewrite Forall_forall in Hrel.
  assert (Hk : rel ∈ claves items)
    by (apply list_elem_of_fmap; by exists (rel, c)).
  assert (Hcs : cs rel ∈ map cs (claves items))
    by (apply list_elem_of_fmap; eauto).
  destruct (unir_relativa base rel (Hrel _ Hk)) as [Ht Hne].
  rewrite Ht in Hc. destruct (cs rel) as [|x s'] eqn:E; [done|].
  simpl in Hc. destruct Hc as [[Hy ->]|(Hsuf & _ & ->)].
  - right. split; [by eauto|].
    change (s ++ base = (x :: s') ++ base) in Hy.
    apply app_inv_tail in Hy. by subst s.
  - left. split; [done|]. exists (x :: s'). split; [done|].
    apply suffix_app_casos in Hsuf as [(s'' & Es & Hs'')|Hsuf].
    + apply app_inv_tail in Es. subst s''. split; [by apply suffix_cons_r|].
      intros ->. by apply suffix_cons_not in Hs''.
    + by apply suffix_app_not in Hsuf.
Qed.

(** Over an area that holds only files of [previas] and the directories
    on the way to them, the loop returns: it skips the paths that are
    there and creates the others. *)
Lemma bucle_mixto (base : ruta) (items : dict) (previas : list string)
    (cuenta : nat * nat) (w : mundo) :
  solo_generado base (disco w) (map cs previas) →
  Forall relativa previas →
  Forall (λ rel, is_Some (disco w !! unir base rel) ∧
                 es_directorio (disco w) (padre (unir base rel))) previas →
  Forall relativa (claves items) →
  compatibles (map cs previas ++ map cs (claves items)) →
  ∃ cuenta' w', bucle cuerpo base items cuenta w = (Valor cuenta', w').
Proof.
  revert previas cuenta w.
  induction items as [|[rel c] items IH];
    intros previas cuenta w Hinv Hrp Hest Hrel Hcomp; [by eauto|].
  simpl in Hrel, Hcomp. apply Forall_cons in Hrel as [Hr Hrel].
  simpl. unfold mbind, M_bind, ligar.
  destruct (decide (cs rel ∈ map cs previas)) as [Hin|Hnin].
  - (* the file is there *)
    apply list_elem_of_fmap in Hin as (rel0 & E & Hin0).
    rewrite Forall_forall in Hest, Hrp.
    destruct (Hest _ Hin0) as [Hya Hdir].
    destruct (unir_relativa base rel Hr) as [Ht _].
    destruct (unir_relativa base rel0 (Hrp _ Hin0)) as [Ht0 _].
    rewrite Ht0, <- E, <- Ht in Hya, Hdir.
    rewrite (paso_omite cuerpo _ _ _ _ _ Hya Hdir).
    apply (IH previas); simpl; try done.
    + by apply Forall_forall.
    + by apply Forall_forall.
    + eapply compatibles_incl; [|done]. intros a Ha.
      apply elem_of_app in Ha as [?|?]; apply elem_of_app; [by left|].
      right. by right.
  - (* the file is missing *)
    destruct (paso_crea cuerpo base rel c cuenta w (map cs previas) Hinv Hr)
      as (w1 & Hp & _ & Hsub & Ha & Hinv1).
    { intros a Ha.
      assert (Ha' : a ∈ map cs previas ++ cs rel :: map cs (claves items))
        by (apply elem_of_app; by left).
      assert (Hr' : cs rel ∈ map cs previas ++ cs rel :: map cs (claves items))
        by (apply elem_of_app; right; by left).
      split; intros Hsuf.
      - apply Hnin. by rewrite <- (compatibles_elem _ _ _ Hcomp Ha' Hr' Hsuf).
      - apply Hnin. by rewrite (compatibles_elem _ _ _ Hcomp Hr' Ha' Hsuf). }
    rewrite Hp.
    pose proof (paso_spec _ _ _ _ _ _ _ _ Hp) as (_ & _ & _ & Hdir & _).
    apply (IH (previas ++ [rel])).
    + by rewrite map_app.
    + apply Forall_app. split; [done|by apply Forall_singleton].
    + apply Forall_app. split.
      * eapply Forall_impl; [done|]. intros rel0 [[n Hn] Hd0]. split.
        -- exists n. by eapply lookup_weaken.
        -- by eapply es_directorio_mono.
      * apply Forall_singleton. split; [by eauto|done].
    + done.
    + rewrite map_app. simpl. by rewrite <- app_assoc.
Qed.

(** The paths of any two levels of 1..5, taken together: none is on the
    way to another, and none has two spellings. *)
Lemma niveles_compatibles (k1 k2 : Z) :
  1 <= k1 <= 5 → 1 <= k2 <= 5 →
  compatibles (map cs (rutas_de k1) ++ map cs (rutas_de k2)) ∧
  sin_sinonimos (rutas_de k1 ++ rutas_de k2).
Proof.
  intros H1 H2.
  destruct (nivel_valido_casos k1 H1) as [->|[->|[->|[->| ->]]]];
    destruct (nivel_valido_casos k2 H2) as [->|[->|[->|[->| ->]]]];
    (split; apply (bool_decide_eq_true_1 _); vm_compute; reflexivity).
Qed.

Lemma presentes_tras_bucle (base : ruta) (items : dict)
    (cuenta cuenta' : nat * nat) (w w' : mundo) :
  bucle cuerpo base items cuenta w = (Valor cuenta', w') →
  Forall (λ rel, is_Some (disco w' !! unir base rel) ∧
                 es_directorio (disco w') (padre (unir base rel)))
         (claves items).
Proof.
  intros (informes & _ & Hinf & _)%bucle_valor.
  apply informe_existente in Hinf. unfold claves.
  apply (Forall_fmap fst). exact Hinf.
Qed.

(** X7.  Two runs in a row, of any two levels of 1..5, over an empty
    destination of a well-formed filesystem: both return; the filesystem
    at the end is the one at the start with the tree of the first level
    added and then the tree of the second where entries are still
    missing, so a path of both levels keeps the text of the first; and the
    second run reports as skipped exactly the paths that the first level
    has, and as created the others. *)
Theorem generar_estructura_sobre_nivel (k1 k2 : Z) (base : ruta)
    (w : mundo) :
  1 <= k1 <= 5 → 1 <= k2 <= 5 →
  bien_formado (disco w) →
  destino_libre (disco w) base →
  ∃ w1 w2,
    generar_estructura cuerpo k1 base w = (Valor tt, w1) ∧
    generar_estructura cuerpo k2 base w1 = (Valor tt, w2) ∧
    disco w2 = disco w ∪ arbol cuerpo base (get_templates k1)
                       ∪ arbol cuerpo base (get_templates k2) ∧
    let informes := map (linea_segunda (rutas_de k1)) (rutas_de k2) in
    salida w2 = salida w1 ++ informes
      ++ totales (contar es_creado informes) (contar es_omitido informes).
Proof.
  intros H1 H2 Hwf Hlibre.
  destruct (rutas_sin_choques k1 H1) as [Hrel1 Hsc1].
  destruct (rutas_sin_choques k2 H2) as [Hrel2 _].
  destruct (niveles_compatibles k1 k2 H1 H2) as [Hcomp Hsin].
  pose proof (longitud_get_templates k1 H1) as Hlen.
  destruct (mkdir_base base w Hlibre) as (wb & Hmk & Hsalb & Hvacio).
  destruct (bucle_crea cuerpo base (get_templates k1) [] (0, 0)%nat wb
              (solo_generado_vacio _ _ Hvacio) Hrel1 Hsc1)
    as (w1b & Hb1 & _ & _).
  pose proof (solo_generado_tras_bucle _ _ _ _ _ _ Hvacio Hrel1 Hb1) as Hsolo.
  pose proof (presentes_tras_bucle _ _ _ _ _ _ Hb1) as Hest.
  assert (Hb1' : bucle cuerpo base (get_templates k1) (0, 0)%nat w
                 = bucle cuerpo base (get_templates k1) (0, 0)%nat wb).
  { destruct Hlibre as (_ & _ & Hbajo).
    apply (bucle_tras_base cuerpo base _ _ w wb Hbajo Hmk); [|done].
    intros E. rewrite E in Hlen. simpl in Hlen. lia. }
  rewrite <- Hb1' in Hb1. simpl in Hb1.
  pose proof (generar_estructura_bucle _ _ _ _ _ _ _ Hb1) as Hg1.
  set (w1 := Mundo (disco w1b)
               (salida w1b ++ totales (length (get_templates k1)) 0)) in *.
  destruct (bucle_mixto base (get_templates k2) (rutas_de k1) (0, 0)%nat w1
              Hsolo Hrel1 Hest Hrel2 Hcomp) as ([cr om] & w2b & Hb2).
  pose proof (generar_estructura_bucle _ _ _ _ _ _ _ Hb2) as Hg2.
  eexists w1, _. split; [exact Hg1|]. split; [exact Hg2|].
  pose proof (generar_estructura_spec _ _ _ _ _ _ Hg1) as (_ & Hwf1 & _).
  split.
  - rewrite (disco_tras_generar k2 base w1 _ (Hwf1 Hwf) Hg2).
    by rewrite (disco_tras_generar k1 base w _ Hwf Hg1).
  - destruct (informe_de_la_corrida _ _ _ _ Hg2) as [Hsal _].
    cbv zeta in Hsal |- *.
    assert (Hmismas : map (linea_esperada (disco w1) base) (rutas_de k2)
                      = map (linea_segunda (rutas_de k1)) (rutas_de k2)).
    { apply map_ext_in. intros rel Hin%list_elem_of_In.
      unfold linea_esperada, linea_segunda.
      assert (Hiff : is_Some (disco w1 !! unir base rel) ↔ rel ∈ rutas_de k1);
        [|by repeat case_bool_decide; tauto].
      rewrite Forall_forall in Hest, Hrel2. split.
      - intros [n Hn].
        destruct (unir_relativa base rel (Hrel2 _ Hin)) as [Ht Hne].
        rewrite Ht in Hn. destruct Hsolo as [_ Hsolo].
        assert (Hr2 : cs rel ∈ map cs (rutas_de k1) ++ map cs (rutas_de k2)).
        { apply elem_of_app. right. apply list_elem_of_fmap. eauto. }
        destruct (Hsolo _ _ Hne Hn) as [(_ & a & Ha & Hsuf & Hdif)|[_ Hd]].
        + exfalso. apply Hdif.
          apply (compatibles_elem _ _ _ Hcomp); [done| |done].
          apply elem_of_app. by left.
        + apply list_elem_of_fmap in Hd as (rel1 & E & Hin1).
          unfold sin_sinonimos in Hsin. rewrite Forall_forall in Hsin.
          assert (Hu1 : rel1 ∈ rutas_de k1 ++ rutas_de k2)
            by (apply elem_of_app; by left).
          assert (Hu2 : rel ∈ rutas_de k1 ++ rutas_de k2)
            by (apply elem_of_app; by right).
          pose proof (Hsin _ Hu1) as Hs1. rewrite Forall_forall in Hs1.
          by rewrite <- (Hs1 _ Hu2 (eq_sym E)).
      - intros Hin1. by destruct (Hest _ Hin1). }
    by rewrite <- Hmismas.
Qed.

Lemma arbol_mono (base : ruta) (items1 items2 : dict) :
  items1 ⊆ items2 →
  Forall relativa (claves items2) →
  sin_choques (map cs (claves items2)) →
  arbol cuerpo base items1 ⊆ arbol cuerpo base items2.
Proof.
  intros Hsub Hrel Hsc. apply map_subseteq_spec. intros y n Hy.
  unfold arbol in *. apply elem_of_list_to_map_2 in Hy.
  apply elem_of_pares in Hy as (rel & c & Hin & Hc).
  assert (Hy2 : (y, n) ∈ pares cuerpo base items2).
  { apply elem_of_pares. exists rel, c. split; [by apply Hsub|done]. }
  apply elem_of_list_to_map_1'; [|done].
  intros n' Hn'. by eapply pares_funcional.
Qed.

(** X8.  From level 3 upwards, going to a higher level by a second run
    gives the filesystem of a single run of the higher level: over a
    well-formed filesystem, for all integers 3 <= k1 <= k2, when the runs
    return, a run of k1 followed by a run of k2 leaves what a run of k2
    alone leaves. *)
Theorem generar_estructura_confluente (k1 k2 : Z) (base : ruta)
    (w w1 w2 w2' : mundo) :
  3 <= k1 → k1 <= k2 →
  bien_formado (disco w) →
  generar_estructura cuerpo k1 base w = (Valor tt, w1) →
  generar_estructura cuerpo k2 base w1 = (Valor tt, w2) →
  generar_estructura cuerpo k2 base w = (Valor tt, w2') →
  disco w2 = disco w2'.
Proof.
  intros H3 H12 Hwf Hg1 Hg2 Hg2'.
  pose proof (generar_estructura_spec _ _ _ _ _ _ Hg1) as (_ & Hwf1 & _).
  rewrite (disco_tras_generar k2 base w1 _ (Hwf1 Hwf) Hg2).
  rewrite (disco_tras_generar k1 base w _ Hwf Hg1).
  rewrite (disco_tras_generar k2 base w _ Hwf Hg2').
  destruct (rutas_sin_choques_Z k2) as [Hrel Hsc].
  rewrite <- (assoc_L (∪)). f_equal. apply map_subseteq_union.
  apply arbol_mono; [|done..].
  apply sublist_subseteq. by apply sublista_de_niveles.
Qed.

(** X9.  Level 2 and the levels from 3 upwards share the path
    [backend.py] with different templates.  After a run of level 2 that
    created [backend.py], a run of a level from 3 upwards in the same
    destination leaves [backend.py] with the text of level 2 and leaves
    [frontend.py] in place, whatever its outcome, and when it returns it
    reports [backend.py] as skipped. *)
Theorem backend_del_nivel_2 (k : Z) (base : ruta) (w w1 : mundo)
    (r : resultado unit) (w2 : mundo) :
  3 <= k →
  disco w !! unir base "backend.py" = None →
  generar_estructura cuerpo 2 base w = (Valor tt, w1) →
  generar_estructura cuerpo k base w1 = (r, w2) →
  disco w2 !! unir base "backend.py"
    = Some (Archivo (cuerpo lit_backend_py)) ∧
  is_Some (disco w2 !! unir base "frontend.py") ∧
  (r = Valor tt →
   ∃ antes despues, salida w2 = antes ++ ImpOmitido "backend.py" :: despues).
Proof.
  intros H3 Hno Hg1 Hg2.
  assert (Hb : unir base "backend.py" = "backend.py" :: base) by reflexivity.
  assert (Hf : unir base "frontend.py" = "frontend.py" :: base)
    by reflexivity.
  assert (H1 : disco w1 !! unir base "backend.py"
               = Some (Archivo (cuerpo lit_backend_py))
               ∧ is_Some (disco w1 !! unir base "frontend.py")).
  { apply generar_estructura_casos in Hg1
      as [(e & [=] & _)|(cr & om & w1b & _ & Hbu & ->)]. cbn [disco].
    pose proof (presentes_tras_bucle _ _ _ _ _ _ Hbu) as Hest.
    change (claves (get_templates 2)) with ["backend.py"; "frontend.py"]
      in Hest.
    apply Forall_cons in Hest as [[[n Hn] _] Hest].
    apply Forall_cons in Hest as [[Hfr _] _]. split; [|done].
    destruct (bucle_nuevos _ _ _ _ _ _ _ _ Hbu Hno Hn)
      as (rel & c & Hin & Hc).
    change (get_templates 2)
      with [("backend.py", Cuerpo lit_backend_py);
            ("frontend.py", Cuerpo lit_frontend_py)] in Hin.
    rewrite Hn. f_equal.
    apply elem_of_cons in Hin as [[= -> ->]|Hin].
    { destruct Hc as [[_ ->]|(Hsuf & _)]; [done|].
      rewrite Hb in Hsuf. by apply suffix_cons_not in Hsuf. }
    apply elem_of_cons in Hin as [[= -> ->]|Hin]; [|by apply elem_of_nil in Hin].
    destruct Hc as [[E _]|(Hsuf & _)].
    - rewrite Hb, Hf in E. done.
    - rewrite Hb, Hf in Hsuf. by apply suffix_cons_not in Hsuf. }
  destruct H1 as [Hback [nf Hfront]].
  pose proof (generar_estructura_spec _ _ _ _ _ _ Hg2) as (Hsub & _).
  split_and!.
  - by eapply lookup_weaken.
  - exists nf. by eapply lookup_weaken.
  - intros ->. destruct (informe_de_la_corrida _ _ _ _ Hg2) as [Hsal _].
    cbv zeta in Hsal.
    assert (Hin : "backend.py" ∈ rutas_de k).
    { unfold rutas_de.
      destruct (get_templates_casos k)
        as [[H _]|[[H _]|[[H _]|[[_ ->]|[[_ ->]|[_ ->]]]]]]; try lia;
        apply (bool_decide_eq_true_1 _); vm_compute; reflexivity. }
    apply list_elem_of_split in Hin as (l1 & l2 & Hl).
    rewrite Hl, map_app, map_cons in Hsal.
    assert (linea_esperada (disco w1) base "backend.py"
            = ImpOmitido "backend.py") as Hlin.
    { unfold linea_esperada. rewrite bool_decide_eq_true_2; [done|].
      by rewrite Hback. }
    rewrite Hlin in Hsal.
    rewrite <- (app_assoc (map _ l1)), <- app_comm_cons,
      (app_assoc (salida w1)) in Hsal.
    eexists _, _. exact Hsal.
Qed.

End MasMaterializador.

(** ** The interactive session: properties *)

Lemma quieto_refl (P : impresion → Prop) (w : mundo) : quieto P w w.
Proof. split; [done|]. exists []. by rewrite app_nil_r. Qed.

Lemma quieto_trans (P : impresion → Prop) (w1 w2 w3 : mundo) :
  quieto P w1 w2 → quieto P w2 w3 → quieto P w1 w3.
Proof.
  intros [Hd1 (l1 & Hs1 & Hp1)] [Hd2 (l2 & Hs2 & Hp2)].
  split; [congruence|]. exists (l1 ++ l2).
  split; [by rewrite Hs2, Hs1, app_assoc|by apply Forall_app].
Qed.

Lemma quieto_print (P : impresion → Prop) (x : impresion) (w : mundo) :
  P x → quieto P w (Mundo (disco w) (salida w ++ [x])).
Proof. intros Hx. split; [done|]. exists [x]. split; [done|]. by constructor. Qed.

Lemma quieto_salida (P : impresion → Prop) (w : mundo)
    (lineas : list impresion) :
  Forall P lineas → quieto P w (Mundo (disco w) (salida w ++ lineas)).
Proof. intros H. split; [done|]. by exists lineas. Qed.

Lemma banner_spec (w : mundo) :
  ∃ lineas, banner w = (Valor tt, Mundo (disco w) (salida w ++ lineas)) ∧
            Forall (λ l, l ≠ exito) lineas.
Proof.
  eexists. split.
  - unfold banner. desarmar. rewrite <- !app_assoc. simpl. reflexivity.
  - repeat constructor; discriminate.
Qed.

Lemma mostrar_niveles_spec (w : mundo) :
  ∃ lineas,
    mostrar_niveles w = (Valor tt, Mundo (disco w) (salida w ++ lineas)) ∧
    Forall (λ l, l ≠ exito) lineas.
Proof.
  eexists. split.
  - unfold mostrar_niveles. change NIVELES_items with
      [(1, "Standalone Script"); (2, "Patrón BF (Backend–Frontend)");
       (3, "Patrón AUDI"); (4, "Patrón AUDDITS");
       (5, "Patrón AUDDITS + MVVM")].
    cbn -[String.append str_nivel]. desarmar.
    rewrite <- !app_assoc. simpl. reflexivity.
  - repeat constructor; discriminate.
Qed.

Section PropiedadesSesion.

Variable strip : string -> string.
Variable lower : string -> string.
Variable int_de : string -> option Z.
Variable resolver : string -> resultado ruta.


(** The cases of [pedir_nivel]. *)
Lemma pedir_nivel_casos (entrada : list tecla) (w : mundo)
    (r : resultado (Z * list tecla)) (w' : mundo) :
  pedir_nivel strip int_de entrada w = (r, w') →
  quieto no_exito w w' ∧
  match r with
  | Valor (nivel, resto) =>
      1 <= nivel <= 5 ∧
      ∃ rechazadas s,
        entrada = map Linea rechazadas ++ Linea s :: resto ∧
        Forall (λ x, nivel_de strip int_de x = None) rechazadas ∧
        nivel_de strip int_de s = Some nivel
  | Excepcion e =>
      e = SystemExit 0 ∧
      ∃ rechazadas cola,
        entrada = map Linea rechazadas ++ cola ∧
        Forall (λ x, nivel_de strip int_de x = None) rechazadas ∧
        (cola = [] ∨ ∃ c, cola = CtrlC :: c)
  end.
Proof.
  revert w. induction entrada as [|[s|] entrada IH]; intros w.
  - intros [= <- <-]. split.
    + simpl. rewrite <- app_assoc. apply quieto_salida.
      repeat constructor; discriminate.
    + split; [done|]. exists [], []. split_and!; [done..|by left].
  - simpl. unfold mbind, M_bind, ligar, print at 1. unfold nivel_de in *.
    set (w0 := Mundo (disco w) (salida w ++ [_])).
    assert (H0 : quieto no_exito w w0)
      by (apply quieto_print; discriminate).
    assert (Hrec : ∀ aviso (Hav : aviso ≠ exito),
      pedir_nivel strip int_de entrada
        (Mundo (disco w0) (salida w0 ++ [aviso])) = (r, w') →
      nivel_de strip int_de s = None →
      quieto no_exito w w' ∧
      match r with
      | Valor (nivel, resto) =>
          1 <= nivel <= 5 ∧
          ∃ rechazadas s0,
            Linea s :: entrada = map Linea rechazadas ++ Linea s0 :: resto ∧
            Forall (λ x, nivel_de strip int_de x = None) rechazadas ∧
            nivel_de strip int_de s0 = Some nivel
      | Excepcion e =>
          e = SystemExit 0 ∧
          ∃ rechazadas cola,
            Linea s :: entrada = map Linea rechazadas ++ cola ∧
            Forall (λ x, nivel_de strip int_de x = None) rechazadas ∧
            (cola = [] ∨ ∃ c, cola = CtrlC :: c)
      end).
    { intros aviso Hav Hrun Hs.
      apply IH in Hrun as [Hq Hr]. split.
      - eapply quieto_trans; [exact H0|].
        eapply quieto_trans; [|exact Hq]. by apply quieto_print.
      - destruct r as [[nivel resto]|e].
        + destruct Hr as (Hn & rech & s0 & -> & Hall & Hs0).
          split; [done|]. exists (s :: rech), s0.
          split_and!; [done|by constructor|done].
        + destruct Hr as (-> & rech & cola & -> & Hall & Hcola).
          split; [done|]. exists (s :: rech), cola.
          split_and!; [done|by constructor|done]. }
    unfold nivel_de in Hrec.
    destruct (int_de (strip s)) as [nivel|] eqn:Hint.
    + destruct ((1 <=? nivel) && (nivel <=? 5)) eqn:Hrango.
      * unfold ret. intros [= <- <-]. split; [done|]. split; [lia|].
        exists [], s. split_and!; [done..|]. by rewrite Hint, Hrango.
      * unfold print at 1. intros Hrun.
        refine (Hrec _ _ Hrun _); [discriminate|done].
    + unfold print at 1. intros Hrun.
      refine (Hrec _ _ Hrun _); [discriminate|done].
  - intros [= <- <-]. split.
    + simpl. rewrite <- app_assoc. apply quieto_salida.
      repeat constructor; discriminate.
    + split; [done|]. exists [], (CtrlC :: entrada).
      split_and!; [done..|]. right. by eauto.
Qed.

(** X10.  [pedir_nivel] takes the first line that reads as an integer of
    1..5 and gives that integer and the input that follows; the lines
    before it were turned down.  When the input is closed or interrupted
    before such a line, it leaves with [sys.exit(0)].  It raises nothing
    else and does not touch the filesystem. *)
Theorem pedir_nivel_spec (entrada : list tecla) (w : mundo)
    (r : resultado (Z * list tecla)) (w' : mundo) :
  pedir_nivel strip int_de entrada w = (r, w') →
  quieto no_exito w w' ∧
  match r with
  | Valor (nivel, resto) =>
      1 <= nivel <= 5 ∧
      ∃ rechazadas s,
        entrada = map Linea rechazadas ++ Linea s :: resto ∧
        Forall (λ x, nivel_de strip int_de x = None) rechazadas ∧
        nivel_de strip int_de s = Some nivel
  | Excepcion e =>
      e = SystemExit 0 ∧
      ∃ rechazadas cola,
        entrada = map Linea rechazadas ++ cola ∧
        Forall (λ x, nivel_de strip int_de x = None) rechazadas ∧
        (cola = [] ∨ ∃ c, cola = CtrlC :: c)
  end.
Proof. exact (pedir_nivel_casos entrada w r w'). Qed.

(** The cases of the loop of [pedir_ruta]: the first line that is not
    blank is resolved, and what the resolution raises is not caught. *)
Lemma pedir_ruta_bucle_spec (entrada : list tecla) (w : mundo)
    (r : resultado (ruta * list tecla)) (w' : mundo) :
  pedir_ruta_bucle strip resolver entrada w = (r, w') →
  quieto no_exito w w' ∧
  match r with
  | Valor (base, resto) =>
      ∃ blancas s,
        entrada = map Linea blancas ++ Linea s :: resto ∧
        Forall (λ x, strip x = EmptyString) blancas ∧
        strip s ≠ EmptyString ∧
        resolver (strip s) = Valor base
  | Excepcion e =>
      e = SystemExit 0 ∨
      ∃ blancas s resto,
        entrada = map Linea blancas ++ Linea s :: resto ∧
        Forall (λ x, strip x = EmptyString) blancas ∧
        strip s ≠ EmptyString ∧
        resolver (strip s) = Excepcion e
  end.
Proof.
  revert w. induction entrada as [|[s|] entrada IH]; intros w.
  - intros [= <- <-]. split; [|by left].
    simpl. rewrite <- app_assoc. apply quieto_salida.
    repeat constructor; discriminate.
  - simpl. unfold mbind, M_bind, ligar, print at 1.
    set (w0 := Mundo (disco w) (salida w ++ [_])).
    assert (H0 : quieto no_exito w w0)
      by (apply quieto_print; discriminate).
    destruct (strip s) as [|a v] eqn:Hs.
    + unfold print at 1. intros [Hq Hr]%IH. split.
      * eapply quieto_trans; [exact H0|].
        eapply quieto_trans; [|exact Hq]. apply quieto_print. discriminate.
      * destruct r as [[base resto]|e].
        -- destruct Hr as (blancas & s0 & -> & Hall & Hs0 & Hres).
           exists (s :: blancas), s0. split_and!; [done| |done..].
           by constructor.
        -- destruct Hr as [->|(blancas & s0 & resto & -> & Hall & Hs0 & Hres)];
             [by left|right].
           exists (s :: blancas), s0, resto. split_and!; [done| |done..].
           by constructor.
    + unfold elevar, ret. destruct (resolver (String a v)) as [base|e] eqn:Hres.
      * intros [= <- <-]. split; [done|].
        exists [], s. rewrite Hs. by split_and!.
      * intros [= <- <-]. split; [done|]. right.
        exists [], s, entrada. rewrite Hs. by split_and!.
  - intros [= <- <-]. split; [|by left].
    simpl. rewrite <- app_assoc. apply quieto_salida.
    repeat constructor; discriminate.
Qed.

Lemma pedir_ruta_spec (entrada : list tecla) (w : mundo)
    (r : resultado (ruta * list tecla)) (w' : mundo) :
  pedir_ruta strip resolver entrada w = (r, w') →
  quieto no_exito w w' ∧
  match r with
  | Valor (base, resto) =>
      ∃ blancas s,
        entrada = map Linea blancas ++ Linea s :: resto ∧
        Forall (λ x, strip x = EmptyString) blancas ∧
        strip s ≠ EmptyString ∧
        resolver (strip s) = Valor base
  | Excepcion e =>
      e = SystemExit 0 ∨
      ∃ blancas s resto,
        entrada = map Linea blancas ++ Linea s :: resto ∧
        Forall (λ x, strip x = EmptyString) blancas ∧
        strip s ≠ EmptyString ∧
        resolver (strip s) = Excepcion e
  end.
Proof.
  unfold pedir_ruta. unfold mbind, M_bind, ligar, print at 1 2 3.
  intros [Hq Hr]%pedir_ruta_bucle_spec. split; [|done].
  eapply quieto_trans; [|exact Hq]. simpl. rewrite <- !app_assoc.
  apply quieto_salida. repeat constructor; discriminate.
Qed.

Lemma NIVELES_rango (nivel : Z) :
  1 <= nivel <= 5 → ∃ nombre, NIVELES nivel = Some nombre.
Proof.
  intros H. destruct (nivel_valido_casos nivel H) as [->|[->|[->|[->| ->]]]];
    by eexists.
Qed.

(** [confirmar] returns, and says yes only to a line that is one of the
    answers. *)
Lemma confirmar_spec (nivel : Z) (base : ruta) (entrada : list tecla)
    (w : mundo) (r : resultado bool) (w' : mundo) :
  1 <= nivel <= 5 →
  confirmar strip lower nivel base entrada w = (r, w') →
  quieto no_exito w w' ∧
  ∃ b, r = Valor b ∧
       (b = true → ∃ resp resto, entrada = Linea resp :: resto ∧
                                 lower (strip resp) ∈ afirmativas).
Proof.
  intros [nombre Hn]%NIVELES_rango. unfold confirmar, nombre_nivel.
  rewrite Hn. unfold mbind, M_bind, ligar, print, ret. simpl.
  intros Hrun.
  assert (∃ b, r = Valor b ∧
            (b = true → ∃ resp resto, entrada = Linea resp :: resto ∧
                                      lower (strip resp) ∈ afirmativas) ∧
            w' = Mundo (disco w)
                   (salida w ++
                    [ImpVacia; ImpTexto "  Resumen:";
                     ImpTexto ("  Nivel : " +:+ str_nivel nivel
                               +:+ " — " +:+ nombre);
                     ImpTexto ("  Ruta  : " +:+ str_ruta base);
                     ImpVacia; ImpTexto "  ¿Continuar? [S/n]: "]))
    as (b & -> & Hb & ->).
  { destruct entrada as [|[s|] entrada]; injection Hrun as <- <-;
      eexists; (split; [done|]); (split; [|rewrite <- !app_assoc; done]).
    - intros [=].
    - intros Hs%bool_decide_eq_true_1. by eauto.
    - intros [=]. }
  split; [|by eauto]. apply quieto_salida.
  repeat constructor; simpl; discriminate.
Qed.

(** The cases of the session. *)
Lemma sesion_interactiva_casos (entrada : list tecla) (w : mundo)
    (r : resultado (Z * ruta)) (w' : mundo) :
  sesion_interactiva strip lower int_de resolver entrada w = (r, w') →
  quieto no_exito w w' ∧
  match r with
  | Valor (nivel, base) =>
      1 <= nivel <= 5 ∧
      ∃ s resp resto,
        lee_hasta_ruta strip int_de entrada nivel s (Linea resp :: resto) ∧
        resolver (strip s) = Valor base ∧
        lower (strip resp) ∈ afirmativas
  | Excepcion e =>
      e = SystemExit 0 ∨
      ∃ nivel s resto,
        lee_hasta_ruta strip int_de entrada nivel s resto ∧
        resolver (strip s) = Excepcion e
  end.
Proof.
  unfold sesion_interactiva. unfold mbind, M_bind, ligar.
  destruct (banner_spec w) as (l1 & -> & Hl1).
  set (wa := Mundo (disco w) (salida w ++ l1)).
  destruct (mostrar_niveles_spec wa) as (l2 & -> & Hl2).
  set (wb := Mundo (disco wa) (salida wa ++ l2)).
  assert (Hab : quieto no_exito w wb).
  { eapply quieto_trans; by apply quieto_salida. }
  destruct (pedir_nivel strip int_de entrada wb) as [[[nivel e1]|ex] w1] eqn:H1;
    apply pedir_nivel_casos in H1 as [Hq1 Hr1].
  2:{ intros [= <- <-]. destruct Hr1 as [-> _].
      split; [by eapply quieto_trans|by left]. }
  destruct Hr1 as (Hniv & rech & sn & Hent & Hrech & Hsn).
  destruct (pedir_ruta strip resolver e1 w1) as [[[base e2]|ex] w2] eqn:H2;
    apply pedir_ruta_spec in H2 as [Hq2 Hr2].
  2:{ intros [= <- <-]. split.
      - eapply quieto_trans; [exact Hab|]. by eapply quieto_trans.
      - destruct Hr2 as [->|(blancas & s & resto & -> & Hbl & Hs & Hres)];
          [by left|right].
        exists nivel, s, resto. split; [|done].
        exists rech, sn, blancas. by split_and!. }
  destruct Hr2 as (blancas & s & -> & Hbl & Hs & Hres).
  destruct (confirmar strip lower nivel base e2 w2) as [rc w3] eqn:H3.
  apply (confirmar_spec _ _ _ _ _ _ Hniv) in H3 as [Hq3 (b & -> & Hb)].
  assert (H03 : quieto no_exito w w3).
  { eapply quieto_trans; [exact Hab|].
    eapply quieto_trans; [exact Hq1|]. by eapply quieto_trans. }
  destruct b.
  - intros [= <- <-]. split; [done|]. split; [done|].
    destruct (Hb eq_refl) as (resp & resto & -> & Hresp).
    exists s, resp, resto. split_and!; [|done..].
    exists rech, sn, blancas. by split_and!.
  - unfold print, lanzar. intros [= <- <-]. split; [|by left].
    eapply quieto_trans; [exact H03|]. apply quieto_print. discriminate.
Qed.


End PropiedadesSesion.

(** ** The entry point, with the session *)

Lemma agrega_trans (P : impresion → Prop) (w1 w2 w3 : mundo) :
  agrega P w1 w2 → agrega P w2 w3 → agrega P w1 w3.
Proof.
  intros (l1 & Hs1 & Hp1) (l2 & Hs2 & Hp2). exists (l1 ++ l2).
  split; [by rewrite Hs2, Hs1, app_assoc|by apply Forall_app].
Qed.

Lemma agrega_salida (P : impresion → Prop) (w w' : mundo)
    (lineas : list impresion) :
  salida w' = salida w ++ lineas → Forall P lineas → agrega P w w'.
Proof. intros Hs Hp. by exists lineas. Qed.

Lemma pasos_siguientes_spec (nivel : Z) (base : ruta) (w : mundo) :
  pasos_siguientes nivel base w
  = (Valor tt, Mundo (disco w) (salida w ++ lineas_pasos nivel base)).
Proof.
  unfold pasos_siguientes, lineas_pasos.
  destruct (4 <=? nivel); [|destruct (3 <=? nivel); [|destruct (nivel =? 2)]];
    desarmar; rewrite <- !app_assoc; reflexivity.
Qed.

Section PropiedadesEntrada.

Variable cuerpo : plantilla -> string.
Variable resolver : string -> resultado ruta.
Variable modo : M (Z * ruta).

(** The stages of [main], one after the other. *)
Lemma main_casos (args : Namespace) (w : mundo) (r : resultado unit)
    (w' : mundo) :
  main cuerpo resolver modo args w = (r, w') →
  ∃ rs ws,
    (if modo_directo args
     then destino ← elevar (resolver (default EmptyString (args_ruta args)));
          ret (default 0 (args_nivel args), destino)
     else modo) w = (rs, ws) ∧
    match rs with
    | Excepcion e => r = Excepcion e ∧ w' = ws
    | Valor (nivel, base) =>
        match NIVELES nivel with
        | None =>
            r = Excepcion (KeyError nivel) ∧
            w' = Mundo (disco ws) (salida ws ++ [ImpVacia])
        | Some nombre =>
            ∃ rm wm,
              mkdir base
                (Mundo (disco ws)
                   (salida ws ++ [ImpVacia; ImpGenerando nivel nombre;
                                  ImpDestino base; ImpVacia])) = (rm, wm) ∧
              match rm with
              | Excepcion e => r = Excepcion e ∧ w' = wm
              | Valor _ =>
                  ∃ rg wg,
                    generar_estructura cuerpo nivel base wm = (rg, wg) ∧
                    match rg with
                    | Excepcion e => r = Excepcion e ∧ w' = wg
                    | Valor _ =>
                        r = Valor tt ∧
                        w' = Mundo (disco wg)
                               (salida wg ++ [ImpVacia; exito; ImpVacia]
                                ++ lineas_pasos nivel base ++ [ImpVacia])
                    end
              end
        end
    end.
Proof.
  unfold main, modo_directo. unfold mbind at 1, M_bind at 1, ligar at 1.
  match goal with
  | |- context [(if ?c then ?a else ?b) w] =>
      destruct ((if c then a else b) w) as [[[nivel base]|e] ws] eqn:Hs
  end.
  2:{ intros [= <- <-]. by exists (Excepcion e), ws. }
  intros Hrun. exists (Valor (nivel, base)), ws. split; [done|].
  revert Hrun. unfold nombre_nivel.
  unfold mbind at 1 2, M_bind at 1 2, ligar at 1 2, print at 1.
  destruct (NIVELES nivel) as [nombre|].
  2:{ intros [= <- <-]. done. }
  unfold ret at 1.
  unfold mbind at 1 2 3 4, M_bind at 1 2 3 4, ligar at 1 2 3 4, print at 1 2 3.
  cbn [disco salida]. rewrite <- !app_assoc. cbn [app].
  destruct (mkdir base _) as [[[]|e] wm] eqn:Hm.
  2:{ intros [= <- <-]. by exists (Excepcion e), wm. }
  intros Hrun. exists (Valor tt), wm. split; [done|].
  revert Hrun. unfold mbind at 1, M_bind at 1, ligar at 1.
  destruct (generar_estructura cuerpo nivel base wm) as [[[]|e] wg] eqn:Hg.
  2:{ intros [= <- <-]. by exists (Excepcion e), wg. }
  intros Hrun. exists (Valor tt), wg. split; [done|].
  revert Hrun.
  unfold mbind, M_bind, ligar, print. rewrite pasos_siguientes_spec.
  cbn [disco salida]. intros [= <- <-]. split; [done|].
  rewrite <- !app_assoc. reflexivity.
Qed.

End PropiedadesEntrada.

Section PropiedadesMainSesion.

Variable cuerpo : plantilla -> string.
Variable strip : string -> string.
Variable lower : string -> string.
Variable int_de : string -> option Z.
Variable resolver : string -> resultado ruta.


Lemma informes_no_exito (base : ruta) (f f' : gmap ruta nodo)
    (items : dict) (lineas : list impresion) :
  Forall2 (informe cuerpo base f f') items lineas →
  Forall no_exito lineas.
Proof.
  induction 1 as [|it l items lineas (_ & [[-> _]|[-> _]]) _ IH];
    constructor; done.
Qed.

Lemma generar_estructura_excepcion (nivel : Z) (base : ruta) (w : mundo)
    (e : excepcion) (w' : mundo) :
  generar_estructura cuerpo nivel base w = (Excepcion e, w') →
  (∃ o, e = OSError o) ∧ agrega no_exito w w'.
Proof.
  intros (_ & _ & hechos & informes & Hinf & Hsal
          & rel & c & resto & cuenta & _ & _ & Hp)%generar_estructura_spec.
  apply paso_spec in Hp as (_ & _ & _ & _ & Ho & _). split; [done|].
  exists informes. split; [done|]. by eapply informes_no_exito.
Qed.

(** The first stage of [main]: the arguments, or the session. *)
Lemma eleccion_spec (entrada : list tecla) (args : Namespace) (w : mundo)
    (rs : resultado (Z * ruta)) (ws : mundo) :
  (if modo_directo args
   then destino ← elevar (resolver (default EmptyString (args_ruta args)));
        ret (default 0 (args_nivel args), destino)
   else sesion_interactiva strip lower int_de resolver entrada) w
    = (rs, ws) →
  quieto no_exito w ws ∧
  match rs with
  | Valor (nivel, base) =>
      (args_validos args → 1 <= nivel <= 5) ∧
      (modo_directo args = true →
       args_nivel args = Some nivel ∧
       resolver (default EmptyString (args_ruta args)) = Valor base)
  | Excepcion e =>
      (modo_directo args = true ∧ ws = w ∧
       resolver (default EmptyString (args_ruta args)) = Excepcion e) ∨
      (modo_directo args = false ∧
       (e = SystemExit 0 ∨ ∃ s, resolver s = Excepcion e))
  end.
Proof.
  destruct (modo_directo args) eqn:Hmodo.
  - unfold mbind, M_bind, ligar, elevar, ret.
    destruct (resolver _) as [base|e] eqn:Hres; intros [= <- <-];
      (split; [apply quieto_refl|]).
    + split.
      * unfold args_validos, modo_directo in *.
        destruct (args_nivel args); simpl in *; done.
      * intros _. unfold modo_directo in Hmodo.
        destruct (args_nivel args); simpl in *; done.
    + by left.
  - intros [Hq Hr]%sesion_interactiva_casos. split; [done|].
    destruct rs as [[nivel base]|e].
    + destruct Hr as [Hn _]. split; [done|]. intros [=].
    + right. split; [done|].
      destruct Hr as [->|(nivel & s & resto & _ & Hres)]; [by left|].
      right. by eauto.
Qed.


(** X13.  With the interactive session, [main] prints the line of success
    exactly when it returns: a run that raises has not printed it. *)
Theorem main_exito (entrada : list tecla) (args : Namespace)
    (w : mundo) (r : resultado unit) (w' : mundo) :
  main cuerpo resolver
    (sesion_interactiva strip lower int_de resolver entrada) args w
    = (r, w') →
  ∃ lineas, salida w' = salida w ++ lineas ∧
            (exito ∈ lineas ↔ r = Valor tt).
Proof.
  intros (rs & ws & Hs & Hr)%main_casos.
  apply eleccion_spec in Hs as [[_ Hs] _].
  assert (Hno : ∀ w0, agrega no_exito w w0 →
            ∃ lineas, salida w0 = salida w ++ lineas ∧ exito ∉ lineas).
  { intros w0 (lineas & Hsal & Hall). exists lineas. split; [done|].
    rewrite Forall_forall in Hall. intros Hin. by apply (Hall _ Hin). }
  destruct rs as [[nivel base]|e0].
  2:{ destruct Hr as [-> ->]. destruct (Hno _ Hs) as (lineas & Hsal & Hni).
      exists lineas. split; [done|]. split; [done|intros [=]]. }
  destruct (NIVELES nivel) as [nombre|].
  2:{ destruct Hr as [-> ->].
      destruct (Hno (Mundo (disco ws) (salida ws ++ [ImpVacia])))
        as (lineas & Hsal & Hni).
      { eapply agrega_trans; [exact Hs|].
        eapply agrega_salida; [done|]. repeat constructor; discriminate. }
      exists lineas. split; [done|]. split; [done|intros [=]]. }
  destruct Hr as (rm & wm & Hm & Hr).
  set (wa := Mundo (disco ws) _) in Hm.
  assert (Ha : agrega no_exito w wa).
  { eapply agrega_trans; [exact Hs|].
    eapply agrega_salida; [done|]. repeat constructor; discriminate. }
  pose proof (mkdir_spec _ _ _ _ Hm) as (Hsm & _).
  assert (Hwm : agrega no_exito w wm).
  { eapply agrega_trans; [exact Ha|].
    eapply (agrega_salida _ _ _ []); [by rewrite app_nil_r|done]. }
  destruct rm as [[]|e1].
  2:{ destruct Hr as [-> ->]. destruct (Hno _ Hwm) as (lineas & Hsal & Hni).
      exists lineas. split; [done|]. split; [done|intros [=]]. }
  destruct Hr as (rg & wg & Hg & Hr). destruct rg as [[]|e2].
  2:{ destruct Hr as [-> ->].
      apply generar_estructura_excepcion in Hg as [_ Hg].
      destruct (Hno wg) as (lineas & Hsal & Hni);
        [by eapply agrega_trans|].
      exists lineas. split; [done|]. split; [done|intros [=]]. }
  destruct Hr as [-> ->].
  destruct Hwm as (l1 & Hsal1 & _).
  pose proof (generar_estructura_spec _ _ _ _ _ _ Hg)
    as (_ & _ & hechos & informes & _ & _ & Hsalg).
  eexists. split.
  - simpl. rewrite Hsalg, Hsal1, <- !app_assoc. reflexivity.
  - split; [done|]. intros _.
    rewrite !elem_of_app, !elem_of_cons. tauto.
Qed.

(** X14.  In direct mode, with a level of 1..5 and a path that resolves
    to a destination that is empty, [main] returns: the destination is a
    directory and every file of the level is in it with the text of its
    template. *)
Theorem main_directo (modo : M (Z * ruta)) (args : Namespace) (base : ruta)
    (w : mundo) :
  let nivel := default 0 (args_nivel args) in
  modo_directo args = true →
  args_validos args →
  resolver (default EmptyString (args_ruta args)) = Valor base →
  destino_libre (disco w) base →
  ∃ w', main cuerpo resolver modo args w = (Valor tt, w') ∧
        es_directorio (disco w') base ∧
        Forall (λ it : string * contenido,
                  disco w' !! unir base it.1
                    = Some (Archivo (texto_de cuerpo it.2)))
               (get_templates nivel).
Proof.
  intros nivel Hmodo Hval Hres Hlibre.
  assert (Hn : args_nivel args = Some nivel ∧ 1 <= nivel <= 5).
  { unfold nivel, args_validos, modo_directo in *.
    destruct (args_nivel args); simpl in *; done. }
  destruct Hn as [Hnivel Hn].
  destruct (main cuerpo resolver modo args w) as [r w'] eqn:Hrun.
  exists w'. apply main_casos in Hrun as (rs & ws & Hs & Hr).
  rewrite Hmodo in Hs. unfold mbind, M_bind, ligar, elevar, ret in Hs.
  rewrite Hres in Hs. injection Hs as <- <-.
  fold nivel in Hr.
  destruct (NIVELES_rango nivel Hn) as [nombre Hnom]. rewrite Hnom in Hr.
  destruct Hr as (rm & wm & Hm & Hr).
  set (wa := Mundo (disco w) _) in Hm.
  destruct (mkdir_base base wa Hlibre) as (wb & Hmb & _ & Hvacio).
  rewrite Hmb in Hm. injection Hm as <- <-.
  destruct Hr as (rg & wg & Hg & Hr).
  assert (Hlibre' : destino_libre (disco wb) base).
  { destruct Hvacio as [Hbase Hbajo].
    split_and!; [by eapply hacedero_dir| |done].
    intros b Hb. rewrite Hbase in Hb. by injection Hb as <-. }
  destruct (primera_vuelta cuerpo nivel base wb Hn Hlibre')
    as (w1 & Hb1 & _ & Harch).
  rewrite (generar_estructura_bucle _ _ _ _ _ _ _ Hb1) in Hg.
  injection Hg as <- <-. destruct Hr as [-> ->]. split; [done|].
  pose proof (bucle_crece _ _ _ _ _ _ _ Hb1) as [Hsub _].
  split; [|done]. simpl. exists true.
  destruct Hvacio as [Hbase _]. by eapply lookup_weaken.
Qed.

End PropiedadesMainSesion.

(** ** More of the model on sample inputs *)

Lemma disco_proj_bien_formado : bien_formado disco_proj.
Proof.
  intros x p [n Hn]. unfold disco_proj, disco_raiz in *.
  apply lookup_insert_Some in Hn as [[[= <- <-] _]|[_ Hn]].
  { exists true. reflexivity. }
  apply lookup_insert_Some in Hn as [[[= <- <-] _]|[_ Hn]].
  { exists true. reflexivity. }
  by apply lookup_singleton_Some in Hn as [[=] _].
Qed.

(** A run on a sample, from the evaluation of its result. *)
Ltac corrida :=
  match goal with
  | |- ?m = (?r, _) =>
      let H := fresh in
      assert (H : m.1 = r) by (vm_compute; reflexivity);
      rewrite <- H; apply surjective_pairing
  end.

(** Level 3 into [/tmp/proj] where neither [/tmp] nor [/tmp/proj] is. *)
Lemma generar_estructura_solo_destino_witness :
  let w := Mundo disco_raiz [] in
  let run := generar_estructura cuerpo_muestra 3 ["proj"; "tmp"] w in
  run.1 = Valor tt ∧
  disco w ⊆ disco run.2 ∧
  ∀ y n, disco w !! y = None → disco run.2 !! y = Some n →
    (["proj"; "tmp"] `suffix_of` y ∧ y ≠ ["proj"; "tmp"]) ∨
    (y `suffix_of` ["proj"; "tmp"] ∧ n = Directorio true).
Proof.
  intros w run. split; [vm_compute; reflexivity|].
  apply (generar_estructura_solo_destino cuerpo_muestra 3 ["proj"; "tmp"]
           (Mundo disco_raiz []) (Valor tt) run.2).
  corrida.
Defined.

(** Level 2 into [/tmp/proj] where [backend.py] is. *)
Lemma generar_estructura_informe_witness :
  let w := Mundo disco_editado [] in
  let w' := (generar_estructura cuerpo_muestra 2 ["proj"; "tmp"] w).2 in
  salida w' = [ImpOmitido "backend.py"; ImpCreado "frontend.py";
               ImpVacia; ImpTotalCreados 1; ImpTotalOmitidos 1; ImpVacia] ∧
  let informes :=
    map (linea_esperada (disco w) ["proj"; "tmp"]) (rutas_de 2) in
  salida w' = salida w ++ informes
    ++ totales (contar es_creado informes) (contar es_omitido informes) ∧
  (contar es_creado informes + contar es_omitido informes)%nat
    = length (get_templates 2).
Proof.
  intros w w'. split; [vm_compute; reflexivity|].
  apply (generar_estructura_informe cuerpo_muestra 2 ["proj"; "tmp"]
           (Mundo disco_editado []) w').
  corrida.
Defined.

Lemma generar_estructura_arbol_witness :
  let w := Mundo disco_proj [] in
  let w' := (generar_estructura cuerpo_muestra 3 ["proj"; "tmp"] w).2 in
  bien_formado (disco w) ∧
  disco w' = disco w
             ∪ arbol cuerpo_muestra ["proj"; "tmp"] (get_templates 3).
Proof.
  intros w w'. split; [apply disco_proj_bien_formado|].
  apply (generar_estructura_arbol cuerpo_muestra 3 ["proj"; "tmp"]
           (Mundo disco_proj []) w').
  - apply disco_proj_bien_formado.
  - corrida.
Defined.

(** Level 2, then level 3, into the empty [/tmp/proj]. *)
Lemma generar_estructura_sobre_nivel_witness :
  let w := Mundo disco_proj [] in
  let base := ["proj"; "tmp"] in
  1 <= 2 <= 5 ∧ 1 <= 3 <= 5 ∧
  bien_formado (disco w) ∧ destino_libre (disco w) base ∧
  ∃ w1 w2,
    generar_estructura cuerpo_muestra 2 base w = (Valor tt, w1) ∧
    generar_estructura cuerpo_muestra 3 base w1 = (Valor tt, w2) ∧
    disco w2 = disco w ∪ arbol cuerpo_muestra base (get_templates 2)
                       ∪ arbol cuerpo_muestra base (get_templates 3) ∧
    let informes := map (linea_segunda (rutas_de 2)) (rutas_de 3) in
    salida w2 = salida w1 ++ informes
      ++ totales (contar es_creado informes) (contar es_omitido informes).
Proof.
  intros w base. split; [lia|]. split; [lia|].
  split; [apply disco_proj_bien_formado|].
  split; [apply disco_proj_libre|].
  apply (generar_estructura_sobre_nivel cuerpo_muestra 2 3 ["proj"; "tmp"]
           (Mundo disco_proj [])).
  - lia.
  - lia.
  - apply disco_proj_bien_formado.
  - apply disco_proj_libre.
Defined.

(** Level 3 and then level 5, against level 5 alone. *)
Lemma generar_estructura_confluente_witness :
  let w := Mundo disco_proj [] in
  let base := ["proj"; "tmp"] in
  let w1 := (generar_estructura cuerpo_muestra 3 base w).2 in
  let w2 := (generar_estructura cuerpo_muestra 5 base w1).2 in
  let w2' := (generar_estructura cuerpo_muestra 5 base w).2 in
  generar_estructura cuerpo_muestra 3 base w = (Valor tt, w1) ∧
  generar_estructura cuerpo_muestra 5 base w1 = (Valor tt, w2) ∧
  generar_estructura cuerpo_muestra 5 base w = (Valor tt, w2') ∧
  disco w2 = disco w2'.
Proof.
  intros w base w1 w2 w2'.
  assert (H1 : generar_estructura cuerpo_muestra 3 base w = (Valor tt, w1))
    by corrida.
  assert (H2 : generar_estructura cuerpo_muestra 5 base w1 = (Valor tt, w2))
    by corrida.
  assert (H3 : generar_estructura cuerpo_muestra 5 base w = (Valor tt, w2'))
    by corrida.
  split_and!; [done..|].
  apply (generar_estructura_confluente cuerpo_muestra 3 5 base w w1 w2 w2').
  - lia.
  - lia.
  - apply disco_proj_bien_formado.
  - exact H1.
  - exact H2.
  - exact H3.
Defined.

(** Level 2 and then level 3 into the empty [/tmp/proj]. *)
Lemma backend_del_nivel_2_witness :
  let w := Mundo disco_proj [] in
  let base := ["proj"; "tmp"] in
  let w1 := (generar_estructura cuerpo_muestra 2 base w).2 in
  let run := generar_estructura cuerpo_muestra 3 base w1 in
  run.1 = Valor tt ∧
  disco run.2 !! unir base "backend.py" = Some (Archivo "# backend.py") ∧
  is_Some (disco run.2 !! unir base "frontend.py") ∧
  (run.1 = Valor tt →
   ∃ antes despues,
     salida run.2 = antes ++ ImpOmitido "backend.py" :: despues).
Proof.
  intros w base w1 run. split; [vm_compute; reflexivity|].
  apply (backend_del_nivel_2 cuerpo_muestra 3 base w w1 run.1 run.2).
  - lia.
  - vm_compute. reflexivity.
  - corrida.
  - apply surjective_pairing.
Defined.

(** The user types a word, then 7, then 2. *)
Lemma pedir_nivel_spec_witness :
  let w := Mundo disco_proj [] in
  let run := pedir_nivel strip_muestra int_de_muestra entrada_muestra w in
  run.1 = Valor (2, [Linea "  "; Linea "/tmp/proj "; Linea "S"]) ∧
  quieto no_exito w run.2 ∧
  match run.1 with
  | Valor (nivel, resto) =>
      1 <= nivel <= 5 ∧
      ∃ rechazadas s,
        entrada_muestra = map Linea rechazadas ++ Linea s :: resto ∧
        Forall (λ x, nivel_de strip_muestra int_de_muestra x = None)
               rechazadas ∧
        nivel_de strip_muestra int_de_muestra s = Some nivel
  | Excepcion e =>
      e = SystemExit 0 ∧
      ∃ rechazadas cola,
        entrada_muestra = map Linea rechazadas ++ cola ∧
        Forall (λ x, nivel_de strip_muestra int_de_muestra x = None)
               rechazadas ∧
        (cola = [] ∨ ∃ c, cola = CtrlC :: c)
  end.
Proof.
  intros w run. split; [vm_compute; reflexivity|].
  apply (pedir_nivel_spec strip_muestra int_de_muestra entrada_muestra w
           run.1 run.2).
  apply surjective_pairing.
Defined.



(** The session of the sample, to the end. *)
Lemma main_exito_witness :
  let w := Mundo disco_proj [] in
  let args := {| args_nivel := None; args_ruta := None;
                 args_forzar := false |} in
  let run := main cuerpo_muestra resolver_muestra
               (sesion_interactiva strip_muestra lower_muestra
                  int_de_muestra resolver_muestra entrada_muestra)
               args w in
  run.1 = Valor tt ∧
  ∃ lineas, salida run.2 = salida w ++ lineas ∧
            (exito ∈ lineas ↔ run.1 = Valor tt).
Proof.
  intros w args run. split; [vm_compute; reflexivity|].
  apply (main_exito cuerpo_muestra strip_muestra lower_muestra
           int_de_muestra resolver_muestra entrada_muestra args w
           run.1 run.2).
  apply surjective_pairing.
Defined.

(** [CLI-Dev-Pattern.py 3 /tmp/proj] *)
Lemma main_directo_witness :
  let w := Mundo disco_proj [] in
  let args := {| args_nivel := Some 3; args_ruta := Some "/tmp/proj";
                 args_forzar := false |} in
  modo_directo args = true ∧ args_validos args ∧
  resolver_muestra (default EmptyString (args_ruta args))
    = Valor ["proj"; "tmp"] ∧
  destino_libre (disco w) ["proj"; "tmp"] ∧
  ∃ w', main cuerpo_muestra resolver_muestra sesion_muestra args w
          = (Valor tt, w') ∧
        es_directorio (disco w') ["proj"; "tmp"] ∧
        Forall (λ it : string * contenido,
                  disco w' !! unir ["proj"; "tmp"] it.1
                    = Some (Archivo (texto_de cuerpo_muestra it.2)))
               (get_templates 3).
Proof.
  intros w args. split; [reflexivity|].
  split; [change (1 <= 3 <= 5); lia|].
  split; [reflexivity|].
  split; [apply disco_proj_libre|].
  apply (main_directo cuerpo_muestra resolver_muestra sesion_muestra args
           ["proj"; "tmp"] w).
  - reflexivity.
  - change (1 <= 3 <= 5). lia.
  - reflexivity.
  - apply disco_proj_libre.
Defined.
